(** * Discord verification bot: the pending-verification store, the guild
      settings store, the OAuth2 callback handler and the bot's handlers.

    A shallow embedding of [utils/verification-store.js],
    [utils/guild-settings.js], the [/callback] route of [web.js] and, from
    [bot.js], [assignVerifiedRole] and what the [/verifysetup] command and
    the Verify button do to the two stores.
    JavaScript [Map]s keyed by strings are finite maps, [Date.now()] is an
    integer number of milliseconds handed in by the caller, and the outcome
    of each [fs.writeFile] is a boolean handed in by the caller (the code
    logs a failed write and carries on). Discord and the identity provider
    are seen through what they answer. *)

From Stdlib Require Import Ascii String.
From stdpp Require Import base option numbers strings list gmap.

Local Open Scope Z_scope.
Local Open Scope string_scope.

(** ** utils/verification-store.js *)

Module VerificationStore.

(** One entry of the store: [{ guildId, state, timestamp }]. *)
Record pending : Type := Pending {
  guildId : string;
  state : string;
  timestamp : Z
}.

#[export] Instance pending_eq_dec : EqDecision pending.
Proof. solve_decision. Defined.

(** The object: [this.store] and the contents of [data/verified.json]
    ([None] while the file has not been written). *)
Record t : Type := Store {
  store : gmap string pending;
  file : option (gmap string pending)
}.

Definition empty : t := {| store := ∅; file := None |}.

(** [const expirationTime = 5 * 60 * 1000] *)
Definition expirationTime : Z := 5 * 60 * 1000.

(** [persist()]: the whole map is written over the file; a failed write
    ([wr = false]) is logged and changes nothing. *)
Definition persist (wr : bool) (vs : t) : t :=
  if wr then {| store := store vs; file := Some (store vs) |} else vs.

(** [addPending(userId, guildId, state)] at time [now]. The state is the
    random string bot.js draws with [generateState()] before the call; the
    store takes it as it comes. *)
Definition addPending (vs : t) (userId guildId' state' : string)
    (now : Z) (wr : bool) : t :=
  persist wr
    {| store := <[userId := {| guildId := guildId'; state := state';
                               timestamp := now |}]> (store vs);
       file := file vs |}.

(** What [verify] did. The three rejections all [return null]; they differ
    in the line written to the log. *)
Inductive verdict : Type :=
| NoPending            (* "No pending verification found for user" *)
| StateMismatch        (* "State mismatch for user ... possible CSRF attempt" *)
| VerificationExpired  (* "Verification expired for user" *)
| Verified (data : pending).

(** The JavaScript return value: [null] or the stored record. *)
Definition returned (v : verdict) : option pending :=
  match v with
  | Verified data => Some data
  | _ => None
  end.

(** Older than the window at time [now]:
    [Date.now() - data.timestamp > expirationTime]. *)
Definition expired (now : Z) (data : pending) : Prop :=
  now - timestamp data > expirationTime.

#[export] Instance expired_dec now data : Decision (expired now data).
Proof. unfold expired. apply _. Defined.

(** [verify(userId, state)] at time [now]. Both arguments come from a
    destructured [split], so either may be [undefined] ([None]); the keys
    of the map are strings, so [this.store.get(undefined)] finds nothing.
    The state is compared before the age is looked at. *)
Definition verify (vs : t) (userId state' : option string)
    (now : Z) (wr : bool) : verdict * t :=
  match userId with
  | None => (NoPending, vs)
  | Some u =>
      match store vs !! u with
      | None => (NoPending, vs)
      | Some data =>
          if decide (Some (state data) ≠ state') then (StateMismatch, vs)
          else
            let gone := {| store := delete u (store vs); file := file vs |} in
            if decide (expired now data)
            then (VerificationExpired, persist wr gone)
            else (Verified data, persist wr gone)
      end
  end.

(** [cleanup()] at time [now]: every entry older than the window is
    deleted, and the file is rewritten when at least one was. *)

Definition cleanup (vs : t) (now : Z) (wr : bool) : t :=
  let kept := filter (λ kv : string * pending, ¬ expired now kv.2) (store vs) in
  let cleaned := (size (store vs) - size kept)%nat in
  let vs' := {| store := kept; file := file vs |} in
  if decide (0 < cleaned)%nat then persist wr vs' else vs'.

(** A caller of the store between two points of interest. *)
Inductive op : Type :=
| OpVerify (userId state' : option string) (now : Z) (wr : bool)
| OpCleanup (now : Z) (wr : bool).

Definition step (vs : t) (o : op) : t :=
  match o with
  | OpVerify userId state' now wr => (verify vs userId state' now wr).2
  | OpCleanup now wr => cleanup vs now wr
  end.

Definition run (vs : t) (ops : list op) : t := foldl step vs ops.

(** Every call a holder of the store can make, [addPending] included, each
    with the time it is made at and the fate of its write to the file. *)
Inductive request : Type :=
| Add (userId guildId' state' : string) (now : Z) (wr : bool)
| Redeem (userId state' : option string) (now : Z) (wr : bool)
| Sweep (now : Z) (wr : bool).

Definition serve (vs : t) (r : request) : t :=
  match r with
  | Add userId guildId' state' now wr => addPending vs userId guildId' state' now wr
  | Redeem userId state' now wr => (verify vs userId state' now wr).2
  | Sweep now wr => cleanup vs now wr
  end.

Definition serve_all (vs : t) (rs : list request) : t := foldl serve vs rs.


Definition with_write (wr : bool) (r : request) : request :=
  match r with
  | Add userId guildId' state' now _ => Add userId guildId' state' now wr
  | Redeem userId state' now _ => Redeem userId state' now wr
  | Sweep now _ => Sweep now wr
  end.


End VerificationStore.

(** ** utils/guild-settings.js *)

Module GuildSettings.

(** The values a settings object holds: [null] or a string. *)
Inductive value : Type :=
| VNull
| VStr (s : string).

#[export] Instance value_eq_dec : EqDecision value.
Proof. solve_decision. Defined.

(** A settings object is a bag of named fields, and it lives in the heap:
    what the [Map] holds and what [getSettings] hands out are references. *)
Abbreviation obj := (gmap string value).
Abbreviation loc := positive.

Record t : Type := Settings {
  settings : gmap string loc;
  heap : gmap loc obj;
  file : option (gmap string obj)
}.

Definition nl : string := String (Ascii.ascii_of_nat 10) "".

(** [const DEFAULT_MESSAGES = { roleId: null, embedTitle: ..., ... }] *)
Definition DEFAULT_MESSAGES : obj :=
  list_to_map
    [("roleId", VNull);
     ("embedTitle", VStr "Welcome to {servername}!");
     ("embedDescription",
      VStr ("Before you can start chatting in **{servername}**, you need to verify yourself."
            +:+ nl +:+ nl +:+
            "Click the **Verify** button below to get started."));
     ("embedColor", VStr "#5865F2");
     ("dmTitle", VStr "Verify Your Account");
     ("dmDescription",
      VStr ("Hi {username}, click the link below to verify yourself in **{servername}**."
            +:+ nl +:+ nl +:+
            "This verification link is secure and will expire in 5 minutes."));
     ("dmColor", VStr "#5865F2")].

(** An object literal or a spread allocates a new object. *)
Definition alloc (o : obj) (gs : t) : loc * t :=
  let l := fresh (dom (heap gs)) in
  (l, {| settings := settings gs; heap := <[l := o]> (heap gs); file := file gs |}).

(** [o.field], [undefined] being [None]. *)
Definition get_field (gs : t) (l : loc) (field : string) : option value :=
  heap gs !! l ≫= (.!! field).

(** [o.field = v], as any holder of the reference [l] may do. *)
Definition set_field (gs : t) (l : loc) (field : string) (v : value) : t :=
  {| settings := settings gs;
     heap := alter (λ o, <[field := v]> o) l (heap gs);
     file := file gs |}.

(** [getSettings(guildId)]: a spread of the defaults when the [Map] has no
    entry, and otherwise [this.settings.get(guildId)] itself. *)
Definition getSettings (gs : t) (guildId : string) : loc * t :=
  match settings gs !! guildId with
  | None => alloc DEFAULT_MESSAGES gs
  | Some l => (l, gs)
  end.

(** [persist()]: [Object.fromEntries(this.settings)] is serialised, so the
    file holds the objects' contents at that moment. *)
Definition persist (wr : bool) (gs : t) : t :=
  if wr
  then {| settings := settings gs; heap := heap gs;
          file := Some (omap (λ l, heap gs !! l) (settings gs)) |}
  else gs.

(** [updateSettings(guildId, newSettings)]:
    [{ ...currentSettings, ...newSettings }] is a new object in which the
    fields of [newSettings] win. *)
Definition updateSettings (gs : t) (guildId : string) (newSettings : obj)
    (wr : bool) : t :=
  let '(currentSettings, gs1) := getSettings gs guildId in
  let '(updatedSettings, gs2) :=
    alloc (newSettings ∪ default ∅ (heap gs1 !! currentSettings)) gs1 in
  persist wr {| settings := <[guildId := updatedSettings]> (settings gs2);
                heap := heap gs2; file := file gs2 |}.

Definition empty : t := {| settings := ∅; heap := ∅; file := None |}.

(** *** [replacePlaceholders] *)

(** The replacement text of [String.prototype.replace] for one match of a
    pattern without groups: [$$] gives a dollar sign, [$&] the text
    matched, [$`] the text before the match and [$'] the text after it;
    any other dollar sign stands for itself. *)
Fixpoint substitution (matched before after replacement : string) : string :=
  match replacement with
  | EmptyString => EmptyString
  | String c tl =>
      if decide (c = "$"%char) then
        match tl with
        | EmptyString => String c EmptyString
        | String c' tl' =>
            if decide (c' = "$"%char) then
              String "$" (substitution matched before after tl')
            else if decide (c' = "&"%char) then
              matched +:+ substitution matched before after tl'
            else if decide (c' = "`"%char) then
              before +:+ substitution matched before after tl'
            else if decide (c' = "'"%char) then
              after +:+ substitution matched before after tl'
            else String c (substitution matched before after tl)
        end
      else String c (substitution matched before after tl)
  end.

Fixpoint drop_string (n : nat) (s : string) : string :=
  match n, s with
  | S n', String _ s' => drop_string n' s'
  | _, _ => s
  end.

(** [text.replace(/pat/g, replacement)] for a pattern that is a plain,
    non-empty text: the matches are found from left to right in the
    original text and do not overlap. [before] is the text already passed
    and [skip] the number of characters left of a match being stepped
    over. *)
Fixpoint replace_from (pat replacement before : string) (skip : nat)
    (s : string) : string :=
  match s with
  | EmptyString => EmptyString
  | String c rest =>
      let before' := before +:+ String c EmptyString in
      match skip with
      | S skip' => replace_from pat replacement before' skip' rest
      | O =>
          if String.prefix pat s then
            substitution pat before (drop_string (String.length pat) s) replacement
            +:+ replace_from pat replacement before' (String.length pat - 1) rest
          else String c (replace_from pat replacement before' 0 rest)
      end
  end.

Definition replace_all (pat replacement s : string) : string :=
  replace_from pat replacement "" 0 s.

(** [x || fallback] for a name that is a string or [undefined]. *)
Definition or_else (x : option string) (fallback : string) : string :=
  match x with
  | Some s => if decide (s = "") then fallback else s
  | None => fallback
  end.

(** [replacePlaceholders(text, data)], [data] being
    [{ serverName, username }]. *)
Definition replacePlaceholders (text : string) (serverName username : option string)
    : string :=
  replace_all "{username}" (or_else username "User")
    (replace_all "{servername}" (or_else serverName "Server") text).

(** Whether the character occurs in the text. *)
Fixpoint occurs (c : ascii) (s : string) : bool :=
  match s with
  | EmptyString => false
  | String c' s' => bool_decide (c' = c) || occurs c s'
  end.

(** [getSettings(guildId).field], as the callers in bot.js read a setting. *)
Definition setting (gs : t) (guildId field : string) : option value :=
  let r := getSettings gs guildId in
  get_field r.2 r.1 field.

(** Every reference held by the [Map] points at an object. *)
Definition wf (gs : t) : Prop :=
  ∀ g l, settings gs !! g = Some l → is_Some (heap gs !! l).

End GuildSettings.

(** ** web.js: the [/callback] route *)

Module Web.

(** A value of [req.query]: absent, a string, or what the query parser
    builds for repeated or bracketed names (an array or an object, which is
    truthy and has no [split]). *)
Inductive qparam : Type :=
| QMissing
| QString (s : string)
| QOther.

(** [!q] *)
Definition falsy (q : qparam) : bool :=
  match q with
  | QMissing => true
  | QString s => bool_decide (s = "")
  | QOther => false
  end.

(** [s.split(sep)] for a one-character separator: never empty, and the
    empty string gives one empty field. *)
Fixpoint split (sep : ascii) (s : string) : list string :=
  match s with
  | EmptyString => [EmptyString]
  | String c rest =>
      if decide (c = sep) then EmptyString :: split sep rest
      else match split sep rest with
           | [] => [String c EmptyString]
           | field :: fields => String c field :: fields
           end
  end.

Definition colon : ascii := ":"%char.

(** What is sent back: a plain text, or one of the two HTML pages with the
    text interpolated into it. *)
Inductive body : Type :=
| Text (s : string)
| ErrorPage (message : string)
| SuccessPage (username : string).

Record response : Type := Response {
  status : Z;
  content : body
}.

(** [userResponse.data] *)
Record discordUser : Type := DiscordUser {
  id : string;
  username : string
}.

(** The outbound calls. [exchange] is the POST to the token endpoint and
    gives the text of [access_token], [fetchUser] is the GET of
    [/users/@me]; [None] is a rejected promise. [assignVerifiedRole] is
    bot.js's function, which catches its own errors and answers a boolean. *)
Record env : Type := Env {
  exchange : qparam → option string;
  fetchUser : string → option discordUser;
  assignVerifiedRole : option string → option string → bool
}.

Inductive call : Type :=
| ExchangeCode (code : qparam)
| FetchIdentity (access_token : string)
| AssignVerifiedRole (userId guildId : option string).

Record outcome : Type := Outcome {
  resp : response;
  after : VerificationStore.t;
  calls : list call
}.

Definition expired_or_invalid : string :=
  "Verification link expired or invalid. Please try again.".
Definition error_occurred : string :=
  "An error occurred during verification. Please try again.".
Definition user_failed : string :=
  "User verification failed. Please try again.".
Definition role_failed : string :=
  "Verification succeeded, but role assignment failed. Please contact an administrator.".

(** [res.send(...)] answers 200 unless [res.status] was called first. *)
Definition send (b : body) (vs : VerificationStore.t) (cs : list call) : outcome :=
  {| resp := {| status := 200; content := b |}; after := vs; calls := cs |}.

(** [app.get("/callback", ...)] *)
Definition callback (e : env) (vs : VerificationStore.t)
    (code state : qparam) (now : Z) (wr : bool) : outcome :=
  if falsy code || falsy state then
    {| resp := {| status := 400; content := Text "Invalid callback parameters" |};
       after := vs; calls := [] |}
  else
    match state with
    | QString s =>
        let fields := split colon s in
        let userId := fields !! 0%nat in
        let guildId := fields !! 1%nat in
        let stateToken := fields !! 2%nat in
        let '(v, vs1) := VerificationStore.verify vs userId stateToken now wr in
        match VerificationStore.returned v with
        | None => send (ErrorPage expired_or_invalid) vs1 []
        | Some verificationData =>
            match exchange e code with
            | None => send (ErrorPage error_occurred) vs1 [ExchangeCode code]
            | Some access_token =>
                match fetchUser e access_token with
                | None =>
                    send (ErrorPage error_occurred) vs1
                      [ExchangeCode code; FetchIdentity access_token]
                | Some discordUser =>
                    if decide (Some (id discordUser) ≠ userId) then
                      send (ErrorPage user_failed) vs1
                        [ExchangeCode code; FetchIdentity access_token]
                    else
                      let roleAssigned := assignVerifiedRole e userId guildId in
                      send (if roleAssigned
                            then SuccessPage (username discordUser)
                            else ErrorPage role_failed) vs1
                        [ExchangeCode code; FetchIdentity access_token;
                         AssignVerifiedRole userId guildId]
                end
            end
        end
    | _ =>
        (* [state.split] is not a function: the TypeError lands in [catch] *)
        send (ErrorPage error_occurred) vs []
    end.

(** The shape the wire format is meant to have: exactly three non-empty
    fields between colons. *)
Definition three_fields (s : string) : Prop :=
  ∃ a b c, split colon s = [a; b; c] ∧ a ≠ "" ∧ b ≠ "" ∧ c ≠ "".

(** The state the [/verify] page hands to Discord for the way back:
    [`${user}:${guild}:${state}`], the three being strings. *)
Definition compositeState (user guild state' : string) : string :=
  user +:+ ":" +:+ guild +:+ ":" +:+ state'.

End Web.

(** ** bot.js: the [/verifysetup] command *)

Module Bot.
Import GuildSettings.

(** An optional string option of the command ([getString] gives a string
    or [null]) under [if (x)]: [null] and the empty string do not count. *)
Definition given (x : option string) : option string :=
  match x with
  | Some s => if decide (s = "") then None else Some s
  | None => None
  end.

(** [const newSettings = { roleId: role.id }] and the three conditional
    assignments that follow it. *)
Definition setupSettings (roleId : string) (title description color : option string)
    : obj :=
  let with_title o :=
    match given title with Some x => <["embedTitle" := VStr x]> o | None => o end in
  let with_description o :=
    match given description with
    | Some x => <["embedDescription" := VStr x]> o
    | None => o
    end in
  let with_color o :=
    match given color with Some x => <["embedColor" := VStr x]> o | None => o end in
  with_color (with_description (with_title {[ "roleId" := VStr roleId ]})).

(** What [/verifysetup] does to the settings store: nothing without a role,
    and otherwise a [getSettings] whose result is not used, followed by
    [updateSettings]. The reply is built afterwards, from the updated
    store. *)
Definition verifysetup (gs : t) (guildId : string) (role : option string)
    (title description color : option string) (wr : bool) : t :=
  match role with
  | None => gs
  | Some roleId =>
      let '(currentSettings, gs1) := getSettings gs guildId in
      updateSettings gs1 guildId (setupSettings roleId title description color) wr
  end.

(** *** [assignVerifiedRole] and the Verify button *)

(** [settings.roleId] under [if (!settings.roleId)]: only a non-empty
    string passes. *)
Definition configured (v : option value) : option string :=
  match v with
  | Some (VStr s) => if decide (s = "") then None else Some s
  | _ => None
  end.

(** What the bot sees of Discord: a member with a name and the ids of the
    roles held, a guild with a name, the ids of its roles and
    [members.fetch] ([None] being a rejected promise), and the guilds in
    the client's cache. *)
Record member : Type := Member {
  memberName : string;
  memberRoles : gset string
}.

Record guild : Type := Guild {
  guildName : string;
  guildRoles : gset string;
  fetch : string → option member
}.

(** The calls made on Discord, in order. *)
Inductive effect : Type :=
| RolesAdd (guildId userId roleId : string)
| Send (userId text : string).

Record assigned : Type := Assigned {
  ok : bool;
  effects : list effect;
  settingsAfter : t
}.

Definition successMessage (username serverName : string) : string :=
  "Hello " +:+ username +:+ "!" +:+ nl +:+ nl
  +:+ "You are now a verified member of **" +:+ serverName +:+ "**."
  +:+ nl +:+ nl
  +:+ "You can now access all channels and start chatting. Welcome to the community!".

Definition refused (gs : t) : assigned :=
  {| ok := false; effects := []; settingsAfter := gs |}.

(** [assignVerifiedRole(userId, guildId)]. Either argument may be
    [undefined], which finds no guild and no member. [add_ok] tells
    whether [member.roles.add] resolves; whether the message that follows
    it gets through makes no difference to the result. Any rejection lands
    in the [catch] and gives [false]. *)
Definition assignVerifiedRole (guilds : gmap string guild) (gs : t)
    (userId guildId : option string) (add_ok : bool) : assigned :=
  match guildId with
  | None => refused gs
  | Some gid =>
      match guilds !! gid with
      | None => refused gs
      | Some guild =>
          let '(settings, gs1) := getSettings gs gid in
          match configured (get_field gs1 settings "roleId") with
          | None => refused gs1
          | Some roleId =>
              match userId with
              | None => refused gs1
              | Some uid =>
                  match fetch guild uid with
                  | None => refused gs1
                  | Some member =>
                      if decide (roleId ∈ guildRoles guild) then
                        if decide (roleId ∈ memberRoles member) then
                          {| ok := true; effects := []; settingsAfter := gs1 |}
                        else if add_ok then
                          {| ok := true;
                             effects :=
                               [RolesAdd gid uid roleId;
                                Send uid (successMessage (memberName member)
                                                         (guildName guild))];
                             settingsAfter := gs1 |}
                        else
                          {| ok := false; effects := [RolesAdd gid uid roleId];
                             settingsAfter := gs1 |}
                      else refused gs1
                  end
              end
          end
      end
  end.

(** How a click on the Verify button ends, as far as the stores go. In the
    last case the session has been stored and the link built; the private
    message is put together after that. *)
Inductive clicked : Type :=
| NotConfigured     (* "Verification is not configured for this server." *)
| ErrorOccurred     (* [members.fetch] rejected: "An error occurred." *)
| RoleDeleted       (* "The verification role was deleted." *)
| AlreadyVerified   (* "You are already verified!" *)
| LinkMade (verifyUrl : string).

(** [`${process.env.BASE_URL}/verify?user=${userId}&guild=${guildId}&state=${state}`] *)
Definition verifyUrl (baseUrl userId guildId state' : string) : string :=
  baseUrl +:+ "/verify?user=" +:+ userId +:+ "&guild=" +:+ guildId
  +:+ "&state=" +:+ state'.

(** The handler of [verify_button], for the member [userId] of the guild
    [g] with id [guildId]. [state'] is what [generateState()] gives when
    it is reached. *)
Definition verifyButton (gs : t) (vs : VerificationStore.t) (g : guild)
    (userId guildId state' baseUrl : string) (now : Z) (wr : bool)
    : clicked * t * VerificationStore.t :=
  let '(settings, gs1) := getSettings gs guildId in
  match configured (get_field gs1 settings "roleId") with
  | None => (NotConfigured, gs1, vs)
  | Some roleId =>
      match fetch g userId with
      | None => (ErrorOccurred, gs1, vs)
      | Some member =>
          if decide (roleId ∈ guildRoles g) then
            if decide (roleId ∈ memberRoles member) then
              (AlreadyVerified, gs1, vs)
            else
              (LinkMade (verifyUrl baseUrl userId guildId state'), gs1,
               VerificationStore.addPending vs userId guildId state' now wr)
          else (RoleDeleted, gs1, vs)
      end
  end.

End Bot.

(** ** A running scenario

    User 42 clicked Verify in guild 7 at time 0 and was sent the state
    [abc]; the identity provider vouches for user 42, known as alice, and
    the bot is able to hand out roles. *)

Module Scenario.

Definition session : VerificationStore.pending :=
  {| VerificationStore.guildId := "7"; VerificationStore.state := "abc";
     VerificationStore.timestamp := 0 |}.

Definition pending42 : VerificationStore.t :=
  VerificationStore.addPending VerificationStore.empty "42" "7" "abc" 0 true.

Definition alice : Web.discordUser := {| Web.id := "42"; Web.username := "alice" |}.

Definition discord : Web.env :=
  {| Web.exchange := λ _, Some "token";
     Web.fetchUser := λ _, Some alice;
     Web.assignVerifiedRole := λ _ _, true |}.

(** The same provider vouching for somebody else, user 99. *)
Definition mallory : Web.discordUser := {| Web.id := "99"; Web.username := "mallory" |}.

Definition discord99 : Web.env :=
  {| Web.exchange := λ _, Some "token";
     Web.fetchUser := λ _, Some mallory;
     Web.assignVerifiedRole := λ _ _, true |}.

(** Guild 7 after [/verifysetup] with role r1. *)
Definition configured7 : GuildSettings.t :=
  GuildSettings.updateSettings GuildSettings.empty "7"
    {[ "roleId" := GuildSettings.VStr "r1" ]} true.

(** Guild 9 as a hand-edited [guild-settings.json] would load it: a record
    holding nothing but the role. *)
Definition sparse9 : GuildSettings.t :=
  {| GuildSettings.settings := {[ "9" := 1%positive ]};
     GuildSettings.heap := {[ 1%positive := {[ "roleId" := GuildSettings.VStr "r9" ]} ]};
     GuildSettings.file := None |}.

(** Guild 7 as the bot sees it: role r1 exists, and member 42 holds no
    role yet. *)
Definition guild7 : Bot.guild :=
  {| Bot.guildName := "Lounge";
     Bot.guildRoles := {[ "r1" ]};
     Bot.fetch := λ uid, if decide (uid = "42")
                         then Some {| Bot.memberName := "alice";
                                      Bot.memberRoles := ∅ |}
                         else None |}.

End Scenario.

(** * Properties *)

(** ** The verification store *)

Section store_facts.
Import VerificationStore.

Implicit Types (vs : t) (u g s : string) (d : pending) (now : Z) (wr : bool).

Lemma store_persist wr vs : store (persist wr vs) = store vs.
Proof. by destruct wr. Qed.

Lemma addPending_lookup vs u g s now wr :
  store (addPending vs u g s now wr) !! u
  = Some {| guildId := g; state := s; timestamp := now |}.
Proof. unfold addPending. rewrite store_persist. simpl. apply lookup_insert_eq. Qed.

Lemma addPending_lookup_ne vs u u' g s now wr :
  u ≠ u' → store (addPending vs u g s now wr) !! u' = store vs !! u'.
Proof.
  intros Hne. unfold addPending. rewrite store_persist. simpl.
  by apply lookup_insert_ne.
Qed.

(** The four ways through [verify]. *)
Lemma verify_absent vs u presented now wr :
  store vs !! u = None → verify vs (Some u) presented now wr = (NoPending, vs).
Proof. intros Hu. unfold verify. by rewrite Hu. Qed.

Lemma verify_mismatch vs u d presented now wr :
  store vs !! u = Some d → presented ≠ Some (state d) →
  verify vs (Some u) presented now wr = (StateMismatch, vs).
Proof.
  intros Hu Hne. unfold verify. rewrite Hu.
  destruct (decide (Some (state d) ≠ presented)) as [_|Heq]; [done|].
  destruct Hne. apply dec_stable in Heq. by symmetry.
Qed.

Lemma verify_expired vs u d now wr :
  store vs !! u = Some d → expired now d →
  verify vs (Some u) (Some (state d)) now wr
  = (VerificationExpired,
     persist wr {| store := delete u (store vs); file := file vs |}).
Proof.
  intros Hu Hexp. unfold verify. rewrite Hu.
  destruct (decide (Some (state d) ≠ Some (state d))) as [Hne|_]; [by destruct Hne|].
  by rewrite decide_True.
Qed.

Lemma verify_in_time vs u d now wr :
  store vs !! u = Some d → ¬ expired now d →
  verify vs (Some u) (Some (state d)) now wr
  = (Verified d,
     persist wr {| store := delete u (store vs); file := file vs |}).
Proof.
  intros Hu Hexp. unfold verify. rewrite Hu.
  destruct (decide (Some (state d) ≠ Some (state d))) as [Hne|_]; [by destruct Hne|].
  by rewrite decide_False.
Qed.

(** [verify] accepts only the stored state. *)
Lemma verify_returned vs userId presented now wr d :
  returned (verify vs userId presented now wr).1 = Some d →
  ∃ u, userId = Some u ∧ store vs !! u = Some d ∧ presented = Some (state d)
       ∧ ¬ expired now d.
Proof.
  unfold verify. destruct userId as [u|]; [|done].
  destruct (store vs !! u) as [d'|] eqn:Hu; [|done].
  destruct (decide (Some (state d') ≠ presented)) as [|Heq]; [done|].
  apply dec_stable in Heq.
  destruct (decide (expired now d')); simpl; [done|].
  intros [= ->]. eauto.
Qed.

(** Neither [verify] nor [cleanup] adds an entry or changes one. *)
Lemma verify_lookup_Some vs userId presented now wr k d :
  store (verify vs userId presented now wr).2 !! k = Some d →
  store vs !! k = Some d.
Proof.
  unfold verify. destruct userId as [u|]; [|done].
  destruct (store vs !! u) as [d'|] eqn:Hu; [|done].
  destruct (decide (Some (state d') ≠ presented)); [done|].
  destruct (decide (expired now d')); simpl; rewrite store_persist; simpl;
    intros Hk; by apply lookup_delete_Some in Hk as [_ Hk].
Qed.

Lemma cleanup_lookup_Some vs now wr k d :
  store (cleanup vs now wr) !! k = Some d → store vs !! k = Some d.
Proof.
  unfold cleanup. case_decide; rewrite ?store_persist; simpl;
    intros Hk; by apply map_lookup_filter_Some in Hk as [Hk _].
Qed.

Lemma step_lookup_Some vs o k d :
  store (step vs o) !! k = Some d → store vs !! k = Some d.
Proof.
  destruct o; simpl; eauto using verify_lookup_Some, cleanup_lookup_Some.
Qed.

Lemma run_lookup_Some ops : ∀ vs k d,
  store (run vs ops) !! k = Some d → store vs !! k = Some d.
Proof.
  induction ops as [|o ops IH]; intros vs k d; simpl; [done|].
  intros Hk. apply IH in Hk. by eapply step_lookup_Some.
Qed.

Lemma run_lookup_None vs ops k :
  store vs !! k = None → store (run vs ops) !! k = None.
Proof.
  intros Hk. destruct (store (run vs ops) !! k) as [d|] eqn:Hr; [|done].
  apply run_lookup_Some in Hr. congruence.
Qed.

End store_facts.

Section store_claims.
Import VerificationStore.

Implicit Types (vs : t) (u g s : string) (d : pending) (now : Z) (wr : bool).

(** C1: after [addPending] has stored a session for a user, [verify] with
    the stored state and within the expiration window returns the stored
    record, whose guild is the one given to [addPending], and deletes the
    session; the same call made again returns [null] (no pending
    verification), and so does every later [verify] for that user until a
    new session is added. *)
Theorem verify_after_addPending_once vs u g s (t0 : Z) (w0 : bool) (t1 : Z) (w1 : bool) :
  (t1 - t0 ≤ expirationTime)%Z →
  let created := {| guildId := g; state := s; timestamp := t0 |} in
  let r := verify (addPending vs u g s t0 w0) (Some u) (Some s) t1 w1 in
  r.1 = Verified created ∧
  guildId <$> returned r.1 = Some g ∧
  store r.2 = delete u (store vs) ∧
  (∀ t2 w2, verify r.2 (Some u) (Some s) t2 w2 = (NoPending, r.2)) ∧
  (∀ ops presented t3 w3,
     returned (verify (run r.2 ops) (Some u) presented t3 w3).1 = None).
Proof.
  intros Hage created r.
  pose proof (addPending_lookup vs u g s t0 w0) as Hu. fold created in Hu.
  assert (Hr : r = (Verified created,
                    persist w1 {| store := delete u (store (addPending vs u g s t0 w0));
                                  file := file (addPending vs u g s t0 w0) |})).
  { apply (verify_in_time _ u created); [done|]. unfold expired. simpl. lia. }
  assert (Hstore : store r.2 = delete u (store vs)).
  { rewrite Hr. simpl. rewrite store_persist. simpl. unfold addPending.
    rewrite store_persist. simpl. apply delete_insert_eq. }
  assert (Hgone : store r.2 !! u = None).
  { rewrite Hstore. apply lookup_delete_eq. }
  split_and!.
  - by rewrite Hr.
  - by rewrite Hr.
  - done.
  - intros t2 w2. by apply verify_absent.
  - intros ops presented t3 w3. rewrite verify_absent; [done|].
    by apply run_lookup_None.
Qed.

Lemma verify_after_addPending_once_witness :
  (2000 - 1000 ≤ expirationTime)%Z ∧
  (verify (addPending empty "42" "7" "abc" 1000 true)
          (Some "42") (Some "abc") 2000 true).1
  = Verified {| guildId := "7"; state := "abc"; timestamp := 1000 |}.
Proof.
  split; [unfold expirationTime; lia|].
  apply (verify_after_addPending_once empty "42" "7" "abc" 1000 true 2000 true).
  unfold expirationTime; lia.
Defined.

(** C4: when a session is stored for a user and the presented state differs
    from the stored one, [verify] rejects (state mismatch, [null]) and
    leaves the store and the file exactly as they were; a later [verify]
    with the stored state, before expiry, still returns the record. *)
Theorem verify_wrong_state_keeps_store vs u d presented now wr :
  store vs !! u = Some d →
  presented ≠ Some (state d) →
  let r := verify vs (Some u) presented now wr in
  r.1 = StateMismatch ∧ returned r.1 = None ∧ r.2 = vs ∧
  ∀ t1 w1, ¬ expired t1 d →
    returned (verify r.2 (Some u) (Some (state d)) t1 w1).1 = Some d.
Proof.
  intros Hu Hne r. unfold r. rewrite (verify_mismatch vs u d); [|done..].
  split_and!; [done..|].
  intros t1 w1 Hfresh. cbn [snd]. by rewrite (verify_in_time vs u d).
Qed.

Lemma verify_wrong_state_keeps_store_witness :
  store Scenario.pending42 !! "42" = Some Scenario.session ∧
  Some "zzz" ≠ Some (state Scenario.session) ∧
  verify Scenario.pending42 (Some "42") (Some "zzz") 5 false
  = (StateMismatch, Scenario.pending42).
Proof.
  assert (H1 : store Scenario.pending42 !! "42" = Some Scenario.session)
    by (vm_compute; reflexivity).
  assert (H2 : Some "zzz" ≠ Some (state Scenario.session)) by discriminate.
  split_and!; [done..|].
  destruct (verify_wrong_state_keeps_store Scenario.pending42 "42"
              Scenario.session (Some "zzz") 5 false H1 H2) as (Hv & _ & Hs & _).
  by apply injective_projections.
Defined.

(** C5, as amended: when the stored session is older than the expiration
    window, [verify] with the stored state rejects as expired ([null]) and
    deletes the session, so that every later [verify] for that user, with
    whatever state, finds no pending verification. *)
Theorem verify_expired_deletes vs u d now wr :
  store vs !! u = Some d →
  expired now d →
  let r := verify vs (Some u) (Some (state d)) now wr in
  r.1 = VerificationExpired ∧ returned r.1 = None ∧
  store r.2 = delete u (store vs) ∧
  ∀ ops presented t1 w1,
    verify (run r.2 ops) (Some u) presented t1 w1 = (NoPending, run r.2 ops).
Proof.
  intros Hu Hexp r. unfold r. rewrite (verify_expired vs u d); [|done..].
  simpl. rewrite store_persist. simpl. split_and!; [done..|].
  intros ops presented t1 w1. apply verify_absent, run_lookup_None.
  rewrite store_persist. simpl. apply lookup_delete_eq.
Qed.

Lemma verify_expired_deletes_witness :
  store Scenario.pending42 !! "42" = Some Scenario.session ∧
  expired 400000 Scenario.session ∧
  (verify Scenario.pending42 (Some "42") (Some "abc") 400000 true).1
  = VerificationExpired.
Proof.
  assert (H1 : store Scenario.pending42 !! "42" = Some Scenario.session)
    by (vm_compute; reflexivity).
  assert (H2 : expired 400000 Scenario.session) by (vm_compute; reflexivity).
  split_and!; [done..|].
  apply (verify_expired_deletes Scenario.pending42 "42" Scenario.session
           400000 true H1 H2).
Defined.

(** C5 as stated fails: the session of user 42 is older than the window at
    time 400000, yet a [verify] presenting another state is rejected as a
    state mismatch, not as expired, and the session stays in the store. *)
Lemma expired_session_wrong_state_stays :
  store Scenario.pending42 !! "42" = Some Scenario.session ∧
  expired 400000 Scenario.session ∧
  (verify Scenario.pending42 (Some "42") (Some "zzz") 400000 true).1
  ≠ VerificationExpired ∧
  store (verify Scenario.pending42 (Some "42") (Some "zzz") 400000 true).2 !! "42"
  = Some Scenario.session.
Proof. vm_compute. split_and!; done. Qed.

(** C6: [addPending] for a user who already has a pending session replaces
    it, and the old state is dead from then on: whatever [verify] and
    [cleanup] calls follow, a [verify] with the old state finds either no
    pending verification or a state mismatch, and returns [null]. The new
    state is taken to differ from the old one. *)
Theorem addPending_invalidates_old_state vs u old g s (t0 : Z) (w0 : bool) :
  store vs !! u = Some old →
  s ≠ state old →
  let vs1 := addPending vs u g s t0 w0 in
  store vs1 !! u = Some {| guildId := g; state := s; timestamp := t0 |} ∧
  ∀ ops now wr,
    let v := (verify (run vs1 ops) (Some u) (Some (state old)) now wr).1 in
    (v = NoPending ∨ v = StateMismatch) ∧ returned v = None.
Proof.
  intros Hold Hne vs1. split; [apply addPending_lookup|].
  intros ops now wr.
  destruct (store (run vs1 ops) !! u) as [d|] eqn:Hu.
  - pose proof (run_lookup_Some _ _ _ _ Hu) as Hd.
    unfold vs1 in Hd. rewrite addPending_lookup in Hd. injection Hd as <-.
    rewrite (verify_mismatch _ u _ _ _ _ Hu); [simpl; auto|].
    simpl. congruence.
  - rewrite verify_absent; [simpl; auto|done].
Qed.

Lemma addPending_invalidates_old_state_witness :
  store Scenario.pending42 !! "42" = Some Scenario.session ∧
  "xyz" ≠ state Scenario.session ∧
  returned (verify (addPending Scenario.pending42 "42" "7" "xyz" 10 true)
                   (Some "42") (Some "abc") 20 true).1 = None.
Proof.
  assert (H1 : store Scenario.pending42 !! "42" = Some Scenario.session)
    by (vm_compute; reflexivity).
  assert (H2 : "xyz" ≠ state Scenario.session) by discriminate.
  split_and!; [done..|].
  apply (proj2 (addPending_invalidates_old_state Scenario.pending42 "42"
                  Scenario.session "7" "xyz" 10 true H1 H2) [] 20 true).
Defined.

End store_claims.

(** ** The callback route *)

Section callback_facts.
Import VerificationStore Web.

Implicit Types (e : env) (vs : VerificationStore.t) (code : qparam)
  (s : string) (now : Z) (wr : bool).

(** Without a state to compare, [verify] rejects and changes nothing. *)
Lemma verify_undefined_state vs userId now wr :
  returned (verify vs userId None now wr).1 = None
  ∧ (verify vs userId None now wr).2 = vs.
Proof.
  unfold verify. destruct userId as [u|]; [|done].
  destruct (store vs !! u) as [d|]; [|done].
  by rewrite decide_True.
Qed.

Lemma callback_bad_request e vs code state now wr :
  falsy code || falsy state = true →
  callback e vs code state now wr
  = {| resp := {| status := 400; content := Text "Invalid callback parameters" |};
       after := vs; calls := [] |}.
Proof. intros Hf. unfold callback. by rewrite Hf. Qed.

(** The route with its guard passed and the state a string. *)
Lemma callback_string e vs code s now wr :
  falsy code = false → s ≠ "" →
  callback e vs code (QString s) now wr
  = let fields := split colon s in
    let r := verify vs (fields !! 0%nat) (fields !! 2%nat) now wr in
    match returned r.1 with
    | None => send (ErrorPage expired_or_invalid) r.2 []
    | Some _ =>
        match exchange e code with
        | None => send (ErrorPage error_occurred) r.2 [ExchangeCode code]
        | Some access_token =>
            match fetchUser e access_token with
            | None =>
                send (ErrorPage error_occurred) r.2
                  [ExchangeCode code; FetchIdentity access_token]
            | Some discordUser =>
                if decide (Some (id discordUser) ≠ fields !! 0%nat) then
                  send (ErrorPage user_failed) r.2
                    [ExchangeCode code; FetchIdentity access_token]
                else
                  send (if assignVerifiedRole e (fields !! 0%nat) (fields !! 1%nat)
                        then SuccessPage (username discordUser)
                        else ErrorPage role_failed) r.2
                    [ExchangeCode code; FetchIdentity access_token;
                     AssignVerifiedRole (fields !! 0%nat) (fields !! 1%nat)]
            end
        end
    end.
Proof.
  intros Hc Hs. unfold callback. rewrite Hc. simpl.
  rewrite bool_decide_eq_false_2; [|done]. simpl.
  by destruct (verify vs _ _ now wr).
Qed.

(** Every answer that is not the 400 goes out through [send]. *)
Lemma callback_status e vs code state now wr :
  status (resp (callback e vs code state now wr))
  = if falsy code || falsy state then 400 else 200.
Proof.
  destruct (falsy code || falsy state) eqn:Hf.
  { by rewrite callback_bad_request. }
  unfold callback. rewrite Hf.
  destruct state as [|s|]; [done| |done].
  destruct (verify vs _ _ now wr) as [v vs1].
  destruct (returned v); [|done].
  destruct (exchange e code); [|done].
  destruct (fetchUser e _); [|done].
  by case_decide.
Qed.

End callback_facts.

Section callback_claims.
Import VerificationStore Web.

Implicit Types (e : env) (vs : VerificationStore.t) (code : qparam)
  (s : string) (now : Z) (wr : bool).

(** C2, where the code departs from it: user 42 holds a session bound to
    guild 7, and [verify] returns that record; the callback arrives with
    the state [42:8:abc], and the role is asked for in guild 8, the guild
    named in the state parameter, with the success page sent. *)
Theorem callback_grants_in_guild_of_state_parameter :
  guildId <$> returned (verify Scenario.pending42 (Some "42") (Some "abc") 1000 true).1
  = Some "7" ∧
  calls (callback Scenario.discord Scenario.pending42
           (QString "code") (QString "42:8:abc") 1000 true)
  = [ExchangeCode (QString "code"); FetchIdentity "token";
     AssignVerifiedRole (Some "42") (Some "8")] ∧
  content (resp (callback Scenario.discord Scenario.pending42
                   (QString "code") (QString "42:8:abc") 1000 true))
  = SuccessPage "alice".
Proof. vm_compute. split_and!; reflexivity. Qed.

(** C7: when the identity provider answers with a user whose id is not the
    user id of the callback's state (the key under which the session was
    redeemed), the callback never calls [assignVerifiedRole] and never sends
    the success page; when the session was redeemed, the answer is the
    "User verification failed" page, after the two calls to the provider
    and nothing else. *)
Theorem callback_identity_mismatch_no_grant e vs code s now wr tok du :
  exchange e code = Some tok →
  fetchUser e tok = Some du →
  Some (id du) ≠ split colon s !! 0%nat →
  let r := callback e vs code (QString s) now wr in
  (∀ u g, AssignVerifiedRole u g ∉ calls r) ∧
  (∀ name, content (resp r) ≠ SuccessPage name) ∧
  (falsy code = false →
   is_Some (returned (verify vs (split colon s !! 0%nat)
                        (split colon s !! 2%nat) now wr).1) →
   content (resp r) = ErrorPage user_failed ∧
   calls r = [ExchangeCode code; FetchIdentity tok]).
Proof.
  intros Hex Hfetch Hid r.
  destruct (falsy code || falsy (QString s)) eqn:Hf.
  { unfold r. rewrite callback_bad_request; [|done]. simpl.
    split_and!; [intros u g; apply not_elem_of_nil|done|].
    intros Hc [d Hd]. rewrite Hc in Hf. simpl in Hf.
    apply bool_decide_eq_true in Hf as ->.
    change (split colon "" !! 2%nat) with (@None string) in Hd.
    by rewrite (proj1 (verify_undefined_state vs _ now wr)) in Hd. }
  apply orb_false_elim in Hf as [Hc Hs]. simpl in Hs.
  apply bool_decide_eq_false in Hs.
  unfold r. rewrite callback_string; [|done..]. cbn zeta.
  destruct (returned (verify vs _ _ now wr).1) as [d|] eqn:Hret.
  - rewrite Hex, Hfetch. rewrite decide_True; [|done]. simpl.
    split_and!; [|done|done].
    intros u g Hin.
    repeat (apply elem_of_cons in Hin as [Hin|Hin]; [discriminate Hin|]).
    by apply elem_of_nil in Hin.
  - simpl. split_and!; [intros u g; apply not_elem_of_nil|done|].
    intros _ [d Hd]. done.
Qed.

Lemma callback_identity_mismatch_no_grant_witness :
  exchange Scenario.discord99 (QString "code") = Some "token" ∧
  fetchUser Scenario.discord99 "token" = Some Scenario.mallory ∧
  Some (id Scenario.mallory) ≠ split colon "42:7:abc" !! 0%nat ∧
  ∀ u g, AssignVerifiedRole u g
         ∉ calls (callback Scenario.discord99 Scenario.pending42
                    (QString "code") (QString "42:7:abc") 1000 true).
Proof.
  assert (H1 : exchange Scenario.discord99 (QString "code") = Some "token")
    by reflexivity.
  assert (H2 : fetchUser Scenario.discord99 "token" = Some Scenario.mallory)
    by reflexivity.
  assert (H3 : Some (id Scenario.mallory) ≠ split colon "42:7:abc" !! 0%nat)
    by (vm_compute; discriminate).
  split_and!; [done..|].
  apply (callback_identity_mismatch_no_grant Scenario.discord99
           Scenario.pending42 (QString "code") "42:7:abc" 1000 true
           "token" Scenario.mallory H1 H2 H3).
Defined.

(** C8 as stated fails: the state [42:7:abc:extra] has four fields, yet the
    callback is answered with status 200 and the success page, the session
    of user 42 is taken out of the store and the role is asked for. *)
Lemma callback_four_fields_accepted :
  ¬ three_fields "42:7:abc:extra" ∧
  resp (callback Scenario.discord Scenario.pending42
          (QString "code") (QString "42:7:abc:extra") 1000 true)
  = {| status := 200; content := SuccessPage "alice" |} ∧
  store Scenario.pending42 !! "42" = Some Scenario.session ∧
  store (after (callback Scenario.discord Scenario.pending42
                  (QString "code") (QString "42:7:abc:extra") 1000 true)) !! "42"
  = None ∧
  calls (callback Scenario.discord Scenario.pending42
           (QString "code") (QString "42:7:abc:extra") 1000 true)
  = [ExchangeCode (QString "code"); FetchIdentity "token";
     AssignVerifiedRole (Some "42") (Some "7")].
Proof.
  split.
  - intros (a & b & c & Hsplit & _). vm_compute in Hsplit. discriminate Hsplit.
  - vm_compute. split_and!; reflexivity.
Qed.

(** C8, as amended: the callback is answered with status 400, the store
    untouched and no outbound call made, exactly when [code] or [state] is
    missing or empty; every other callback is answered with status 200. A
    state string with fewer than three colon-delimited fields gets the
    "expired or invalid" page, with the store untouched and no outbound
    call. Beyond that the shape of the state is not checked: only its first
    three fields are looked at. *)
Theorem callback_state_shape e vs code state now wr :
  let r := callback e vs code state now wr in
  (falsy code || falsy state = true →
   resp r = {| status := 400; content := Text "Invalid callback parameters" |}
   ∧ after r = vs ∧ calls r = []) ∧
  (falsy code || falsy state = false → status (resp r) = 200) ∧
  (∀ s, state = QString s → falsy code = false → s ≠ "" →
        (length (split colon s) < 3)%nat →
        r = send (ErrorPage expired_or_invalid) vs []) ∧
  (∀ s s', state = QString s → s ≠ "" → s' ≠ "" →
           take 3 (split colon s) = take 3 (split colon s') →
           r = callback e vs code (QString s') now wr).
Proof.
  intros r. split_and!.
  - intros Hf. unfold r. by rewrite callback_bad_request.
  - intros Hf. unfold r. by rewrite callback_status, Hf.
  - intros s -> Hc Hs Hlen. unfold r. rewrite callback_string; [|done..].
    cbn zeta. rewrite (lookup_ge_None_2 (split colon s) 2); [|lia].
    destruct (verify_undefined_state vs (split colon s !! 0%nat) now wr)
      as [-> ->]. done.
  - intros s s' -> Hs Hs' Htake. unfold r.
    destruct (falsy code) eqn:Hc.
    { by rewrite !callback_bad_request by (by rewrite Hc). }
    rewrite !callback_string; [|done..]. cbn zeta.
    assert (Hi : ∀ i, (i < 3)%nat → split colon s !! i = split colon s' !! i).
    { intros i Hi. rewrite <-(lookup_take_lt (split colon s) 3 i) by done.
      rewrite Htake. by apply lookup_take_lt. }
    by rewrite !(Hi 0%nat), !(Hi 1%nat), !(Hi 2%nat) by lia.
Qed.

Lemma callback_state_shape_witness :
  falsy (QString "code") = false ∧
  (length (split colon "42:7") < 3)%nat ∧
  callback Scenario.discord Scenario.pending42
    (QString "code") (QString "42:7") 1000 true
  = send (ErrorPage expired_or_invalid) Scenario.pending42 [].
Proof.
  split_and!; [reflexivity|vm_compute; lia|].
  apply (proj1 (proj2 (proj2 (callback_state_shape Scenario.discord
           Scenario.pending42 (QString "code") (QString "42:7") 1000 true)))
           "42:7"); [reflexivity|reflexivity|discriminate|vm_compute; lia].
Defined.

End callback_claims.

(** ** The guild settings store *)

Section settings_facts.
Import GuildSettings.

Implicit Types (gs : t) (g field : string) (l : loc) (o : obj) (v : value).

Lemma getSettings_stored gs g l :
  settings gs !! g = Some l → getSettings gs g = (l, gs).
Proof. intros Hg. unfold getSettings. by rewrite Hg. Qed.

Lemma getSettings_absent gs g :
  settings gs !! g = None →
  let r := getSettings gs g in
  (fst r ∉ dom (heap gs)) ∧ settings r.2 = settings gs ∧
  heap r.2 = <[r.1 := DEFAULT_MESSAGES]> (heap gs).
Proof.
  intros Hg. unfold getSettings. rewrite Hg. simpl.
  split_and!; [apply is_fresh|done..].
Qed.

Lemma get_set_field gs l o field v :
  heap gs !! l = Some o → get_field (set_field gs l field v) l field = Some v.
Proof.
  intros Hl. unfold get_field, set_field. simpl.
  rewrite lookup_alter_eq, Hl. simpl. apply lookup_insert_eq.
Qed.

(** The other branch: what [getSettings] hands out for a guild without a
    record is a copy, and writing to it is not seen by the next call. *)
Lemma getSettings_absent_is_copy gs g field v :
  settings gs !! g = None →
  let r := getSettings gs g in
  let gs' := set_field r.2 r.1 field v in
  let r' := getSettings gs' g in
  get_field r'.2 r'.1 field = DEFAULT_MESSAGES !! field.
Proof.
  intros Hg r gs' r'.
  assert (Hg' : settings gs' !! g = None).
  { unfold gs', r, getSettings. by rewrite Hg. }
  destruct (getSettings_absent gs' g Hg') as (_ & _ & Hheap).
  unfold get_field, r'. rewrite Hheap, lookup_insert_eq. done.
Qed.

End settings_facts.

Section settings_claims.
Import GuildSettings.

Implicit Types (gs : t) (g field : string) (l : loc) (o : obj) (v : value).

(** C9, where the code departs from it: for a guild with a stored record
    [getSettings] returns the stored object itself, so a field written
    through the returned reference is what the next [getSettings] reads. *)
Theorem getSettings_stored_is_live gs g l o field v :
  settings gs !! g = Some l →
  heap gs !! l = Some o →
  let r := getSettings gs g in
  let gs' := set_field r.2 r.1 field v in
  let r' := getSettings gs' g in
  r.1 = l ∧ r'.1 = l ∧ get_field r'.2 r'.1 field = Some v.
Proof.
  intros Hg Hl r gs' r'. unfold r', gs', r.
  rewrite (getSettings_stored gs g l Hg). cbn [fst snd].
  rewrite (getSettings_stored (set_field gs l field v) g l) by done.
  cbn [fst snd]. split_and!; [done..|].
  by apply get_set_field with o.
Qed.

Lemma getSettings_stored_is_live_witness :
  settings Scenario.configured7 !! "7" = Some 2%positive ∧
  get_field Scenario.configured7 2%positive "roleId" = Some (VStr "r1") ∧
  get_field
    (getSettings (set_field Scenario.configured7
                    (getSettings Scenario.configured7 "7").1 "roleId" (VStr "r2"))
                 "7").2
    (getSettings (set_field Scenario.configured7
                    (getSettings Scenario.configured7 "7").1 "roleId" (VStr "r2"))
                 "7").1
    "roleId"
  = Some (VStr "r2").
Proof.
  assert (H1 : settings Scenario.configured7 !! "7" = Some 2%positive)
    by (vm_compute; reflexivity).
  assert (H2 : heap Scenario.configured7 !! 2%positive
               = Some ({[ "roleId" := VStr "r1" ]} ∪ DEFAULT_MESSAGES))
    by (vm_compute; reflexivity).
  split_and!; [done|vm_compute; reflexivity|].
  apply (getSettings_stored_is_live Scenario.configured7 "7" 2%positive _
           "roleId" (VStr "r2") H1 H2).
Defined.

(** C10: for a guild with a stored record [getSettings] returns that record
    and nothing else: the store is left as it was, every field reads as the
    record has it, and a field the record lacks reads as [undefined] even
    where the defaults have a value. The defaults are what a guild without
    any record gets. *)
Theorem getSettings_stored_exact gs g l o :
  settings gs !! g = Some l →
  heap gs !! l = Some o →
  let r := getSettings gs g in
  r.2 = gs ∧ heap r.2 !! r.1 = Some o ∧
  (∀ field, get_field r.2 r.1 field = o !! field) ∧
  (∀ field, o !! field = None → get_field r.2 r.1 field = None) ∧
  (∀ g', settings gs !! g' = None →
         heap (getSettings gs g').2 !! (getSettings gs g').1
         = Some DEFAULT_MESSAGES).
Proof.
  intros Hg Hl r. unfold r. rewrite (getSettings_stored gs g l Hg).
  cbn [fst snd]. unfold get_field. rewrite Hl. simpl.
  split_and!; [done..|].
  intros g' Hg'. destruct (getSettings_absent gs g' Hg') as (_ & _ & ->).
  apply lookup_insert_eq.
Qed.

Lemma getSettings_stored_exact_witness :
  settings Scenario.sparse9 !! "9" = Some 1%positive ∧
  heap Scenario.sparse9 !! 1%positive = Some {[ "roleId" := VStr "r9" ]} ∧
  is_Some (DEFAULT_MESSAGES !! "embedTitle") ∧
  get_field (getSettings Scenario.sparse9 "9").2
            (getSettings Scenario.sparse9 "9").1 "embedTitle" = None.
Proof.
  assert (H1 : settings Scenario.sparse9 !! "9" = Some 1%positive)
    by (vm_compute; reflexivity).
  assert (H2 : heap Scenario.sparse9 !! 1%positive
               = Some {[ "roleId" := VStr "r9" ]})
    by (vm_compute; reflexivity).
  split_and!; [done|done|vm_compute; eauto|].
  apply (getSettings_stored_exact Scenario.sparse9 "9" 1%positive _ H1 H2).
  vm_compute; reflexivity.
Defined.

End settings_claims.

(** ** More on the verification store *)

Section store_more.
Import VerificationStore.

Implicit Types (vs : t) (u g s : string) (d : pending) (now : Z) (wr : bool).

Lemma cleanup_store vs now wr :
  store (cleanup vs now wr)
  = filter (λ kv : string * pending, ¬ expired now kv.2) (store vs).
Proof. unfold cleanup. case_decide; by rewrite ?store_persist. Qed.

(** [verify] hands out a record exactly when that record is stored under
    the user id presented, the state presented is the record's, and the
    record is not older than the window. *)
Theorem verify_returns_iff vs userId presented now wr d :
  returned (verify vs userId presented now wr).1 = Some d
  ↔ ∃ u, userId = Some u ∧ store vs !! u = Some d
         ∧ presented = Some (state d) ∧ ¬ expired now d.
Proof.
  split; [apply verify_returned|].
  intros (u & -> & Hu & -> & Hfresh). by rewrite (verify_in_time vs u d).
Qed.

(** Users do not interfere: neither [addPending] nor [verify] for one user
    touches the entry of another. *)
Theorem other_users_untouched vs u u' g s presented now wr :
  u ≠ u' →
  store (addPending vs u g s now wr) !! u' = store vs !! u'
  ∧ store (verify vs (Some u) presented now wr).2 !! u' = store vs !! u'.
Proof.
  intros Hne. split; [by apply addPending_lookup_ne|].
  unfold verify. destruct (store vs !! u) as [d|]; [|done].
  destruct (decide (Some (state d) ≠ presented)); [done|].
  destruct (decide (expired now d)); simpl; rewrite store_persist; simpl;
    by apply lookup_delete_ne.
Qed.

Lemma other_users_untouched_witness :
  "42" ≠ "43" ∧
  store (verify (addPending Scenario.pending42 "43" "7" "xyz" 5 true)
                (Some "43") (Some "xyz") 9 true).2 !! "42"
  = Some Scenario.session.
Proof.
  assert (H : "43" ≠ "42") by discriminate.
  split; [discriminate|].
  rewrite (proj2 (other_users_untouched
                    (addPending Scenario.pending42 "43" "7" "xyz" 5 true)
                    "43" "42" "7" "xyz" (Some "xyz") 9 true H)).
  vm_compute. reflexivity.
Defined.

(** The window is closed on the right: a session added at [t0] is handed
    out by [verify] at every time up to and including [t0 + 300000], also
    when the clock reads less than [t0], and is rejected as expired at
    every later time. *)
Theorem verify_window vs u g s (t0 : Z) (w0 : bool) now wr :
  (verify (addPending vs u g s t0 w0) (Some u) (Some s) now wr).1
  = if decide (now ≤ t0 + 300000)%Z
    then Verified {| guildId := g; state := s; timestamp := t0 |}
    else VerificationExpired.
Proof.
  pose proof (addPending_lookup vs u g s t0 w0) as Hu.
  set (d := {| guildId := g; state := s; timestamp := t0 |}) in *.
  case_decide as Hnow.
  - rewrite (verify_in_time _ u d); [done..|].
    unfold expired, expirationTime. simpl. lia.
  - rewrite (verify_expired _ u d); [done..|].
    unfold expired, expirationTime. simpl. lia.
Qed.

(** [cleanup] keeps exactly the entries that are not older than the
    window, each as it was. *)
Lemma cleanup_lookup vs now wr k d :
  store (cleanup vs now wr) !! k = Some d
  ↔ store vs !! k = Some d ∧ ¬ expired now d.
Proof. rewrite cleanup_store. apply map_lookup_filter_Some. Qed.

Lemma cleanup_id vs now wr :
  (∀ k d, store vs !! k = Some d → ¬ expired now d) →
  cleanup vs now wr = vs.
Proof.
  intros Hall. unfold cleanup.
  rewrite map_filter_id by (intros k d Hk; by apply (Hall k d)).
  rewrite Nat.sub_diag. rewrite decide_False by lia. by destruct vs.
Qed.

(** When no entry is older than the window [cleanup] changes nothing, and
    in particular does not write the file. *)
Theorem cleanup_nothing_expired vs now wr :
  (∀ k d, store vs !! k = Some d → ¬ expired now d) →
  cleanup vs now wr = vs.
Proof. apply cleanup_id. Qed.

Lemma cleanup_nothing_expired_witness :
  (∀ k d, store Scenario.pending42 !! k = Some d → ¬ expired 1000 d) ∧
  cleanup Scenario.pending42 1000 false = Scenario.pending42.
Proof.
  assert (H : ∀ k d, store Scenario.pending42 !! k = Some d → ¬ expired 1000 d).
  { intros k d Hk.
    destruct (decide (k = "42")) as [->|Hne].
    - vm_compute in Hk. injection Hk as <-. vm_compute. discriminate.
    - unfold Scenario.pending42 in Hk.
      rewrite addPending_lookup_ne in Hk by done. done. }
  split; [exact H|].
  apply (cleanup_nothing_expired Scenario.pending42 1000 false H).
Defined.

(** A second [cleanup] at the same time finds nothing to do: store and
    file stay as the first one left them. *)
Theorem cleanup_twice vs now wr wr' :
  cleanup (cleanup vs now wr) now wr' = cleanup vs now wr.
Proof.
  apply cleanup_id. intros k d Hk.
  by apply cleanup_lookup in Hk as [_ Hk].
Qed.

(** [cleanup] never changes what a later [verify] returns: the sessions it
    removes are the ones [verify] would refuse anyway. *)
Theorem cleanup_then_verify vs (t : Z) wr userId presented now wr' :
  (t ≤ now)%Z →
  returned (verify (cleanup vs t wr) userId presented now wr').1
  = returned (verify vs userId presented now wr').1.
Proof.
  intros Ht. destruct userId as [u|]; [|done].
  destruct (store vs !! u) as [d|] eqn:Hu.
  - destruct (decide (expired t d)) as [Hexp|Hfresh].
    + assert (Hgone : store (cleanup vs t wr) !! u = None).
      { destruct (store (cleanup vs t wr) !! u) as [d'|] eqn:Hc; [|done].
        apply cleanup_lookup in Hc as [Hc Hd']. congruence. }
      rewrite (verify_absent _ u) by done.
      destruct (decide (presented = Some (state d))) as [->|Hne].
      * rewrite (verify_expired vs u d); [done..|].
        unfold expired in *. lia.
      * by rewrite (verify_mismatch vs u d).
    + assert (Hkept : store (cleanup vs t wr) !! u = Some d).
      { by apply cleanup_lookup. }
      unfold verify. rewrite Hu, Hkept.
      destruct (decide (Some (state d) ≠ presented)); [done|].
      by destruct (decide (expired now d)).
  - assert (Hgone : store (cleanup vs t wr) !! u = None).
    { destruct (store (cleanup vs t wr) !! u) as [d'|] eqn:Hc; [|done].
      apply cleanup_lookup in Hc as [Hc _]. congruence. }
    by rewrite !(verify_absent _ u).
Qed.

Lemma cleanup_then_verify_witness :
  (400000 ≤ 400001)%Z ∧
  returned (verify (cleanup Scenario.pending42 400000 true)
                   (Some "42") (Some "abc") 400001 true).1
  = None.
Proof.
  split; [lia|].
  rewrite (cleanup_then_verify Scenario.pending42 400000 true
             (Some "42") (Some "abc") 400001 true) by lia.
  vm_compute. reflexivity.
Defined.

(** A failed write to the file never changes what the store holds in
    memory: the map after any run of calls is the one reached when every
    write succeeds. *)
Theorem store_ignores_failed_writes rs : ∀ vs vs',
  store vs = store vs' →
  store (serve_all vs rs) = store (serve_all vs' (with_write true <$> rs)).
Proof.
  induction rs as [|r rs IH]; intros vs vs' Heq; simpl; [done|].
  apply IH. destruct r as [u g s now wr|userId presented now wr|now wr]; simpl.
  - unfold addPending. rewrite !store_persist. simpl. by rewrite Heq.
  - unfold verify. destruct userId as [u|]; [|done]. rewrite Heq.
    destruct (store vs' !! u) as [d|]; [|done].
    destruct (decide (Some (state d) ≠ presented)); [done|].
    destruct (decide (expired now d)); simpl; by rewrite !store_persist.
  - rewrite !cleanup_store. by rewrite Heq.
Qed.

Lemma store_ignores_failed_writes_witness :
  store Scenario.pending42 = store Scenario.pending42 ∧
  store (serve_all Scenario.pending42
           [Add "43" "7" "xyz" 5 false; Redeem (Some "42") (Some "abc") 9 false])
  = store (serve_all Scenario.pending42
           [Add "43" "7" "xyz" 5 true; Redeem (Some "42") (Some "abc") 9 true]).
Proof.
  split; [reflexivity|].
  apply (store_ignores_failed_writes
           [Add "43" "7" "xyz" 5 false; Redeem (Some "42") (Some "abc") 9 false]
           Scenario.pending42 Scenario.pending42 eq_refl).
Defined.




End store_more.

(** ** More on the guild settings store *)

Section settings_more.
Import GuildSettings.

Implicit Types (gs : t) (g field : string) (l : loc) (o new : obj) (v : value)
  (wr : bool).

Lemma settings_persist wr gs : settings (persist wr gs) = settings gs.
Proof. by destruct wr. Qed.

Lemma heap_persist wr gs : heap (persist wr gs) = heap gs.
Proof. by destruct wr. Qed.

Lemma setting_stored gs g l field :
  settings gs !! g = Some l → setting gs g field = get_field gs l field.
Proof. intros Hg. unfold setting. by rewrite (getSettings_stored gs g l). Qed.

Lemma setting_absent gs g field :
  settings gs !! g = None → setting gs g field = DEFAULT_MESSAGES !! field.
Proof.
  intros Hg. unfold setting.
  destruct (getSettings_absent gs g Hg) as (_ & _ & Hheap).
  unfold get_field. by rewrite Hheap, lookup_insert_eq.
Qed.

(** What [updateSettings] builds: a new object, not yet in the heap, holding
    the merge, and bound to the guild. *)
Lemma updateSettings_shape gs g new wr :
  ∃ l' o,
    heap gs !! l' = None ∧
    settings (updateSettings gs g new wr) = <[g := l']> (settings gs) ∧
    heap (updateSettings gs g new wr) !! l' = Some (new ∪ o) ∧
    (∀ field, o !! field = setting gs g field) ∧
    (∀ l, is_Some (heap gs !! l) →
          heap (updateSettings gs g new wr) !! l = heap gs !! l).
Proof.
  unfold updateSettings. destruct (settings gs !! g) as [l|] eqn:Hg.
  - rewrite (getSettings_stored gs g l Hg). unfold alloc. cbn [fst snd].
    set (l' := fresh (dom (heap gs))).
    assert (Hl' : heap gs !! l' = None) by apply not_elem_of_dom, is_fresh.
    exists l', (default ∅ (heap gs !! l)).
    rewrite settings_persist, heap_persist. simpl.
    split_and!; [done|done|apply lookup_insert_eq| |].
    + intros field. rewrite (setting_stored gs g l) by done.
      unfold get_field. by destruct (heap gs !! l).
    + intros l0 [o0 Hl0]. apply lookup_insert_ne. congruence.
  - pose proof (getSettings_absent gs g Hg) as (Hfresh & Hset & Hheap).
    destruct (getSettings gs g) as [l1 gs1] eqn:Hget. cbn [fst snd] in *.
    unfold alloc. cbn [fst snd].
    set (l' := fresh (dom (heap gs1))).
    assert (Hl' : heap gs1 !! l' = None) by apply not_elem_of_dom, is_fresh.
    assert (Hl1 : heap gs !! l1 = None) by by apply not_elem_of_dom.
    assert (Hne : l1 ≠ l').
    { intros <-. by rewrite Hheap, lookup_insert_eq in Hl'. }
    exists l', DEFAULT_MESSAGES.
    rewrite settings_persist, heap_persist. simpl.
    split_and!.
    + rewrite Hheap in Hl'. by rewrite lookup_insert_ne in Hl'.
    + by rewrite Hset.
    + rewrite lookup_insert_eq. by rewrite Hheap, lookup_insert_eq.
    + intros field. by rewrite setting_absent.
    + intros l0 [o0 Hl0].
      assert (Hl0' : heap gs1 !! l0 = Some o0).
      { rewrite Hheap, lookup_insert_ne; [done|congruence]. }
      rewrite lookup_insert_ne by congruence.
      rewrite Hl0'. by rewrite Hl0.
Qed.

Lemma setting_updateSettings gs g new wr field :
  setting (updateSettings gs g new wr) g field
  = match new !! field with
    | Some v => Some v
    | None => setting gs g field
    end.
Proof.
  destruct (updateSettings_shape gs g new wr) as (l' & o & _ & Hset & Hheap & Ho & _).
  rewrite (setting_stored _ g l') by (rewrite Hset; apply lookup_insert_eq).
  unfold get_field. rewrite Hheap. simpl. rewrite lookup_union, Ho.
  destruct (new !! field), (setting gs g field); done.
Qed.

(** [updateSettings] is a partial merge: afterwards a field named in
    [newSettings] reads as given there, and every other field reads as it
    did before, from the guild's record or, without one, from the
    defaults. *)
Theorem updateSettings_merges gs g new wr field :
  setting (updateSettings gs g new wr) g field
  = match new !! field with
    | Some v => Some v
    | None => setting gs g field
    end.
Proof. apply setting_updateSettings. Qed.

(** [updateSettings] writes into no existing object: whoever holds a
    settings object from before the update keeps reading the old values
    from it, and the guild is bound to an object that did not exist. *)
Theorem updateSettings_leaves_objects gs g new wr l field :
  is_Some (heap gs !! l) →
  get_field (updateSettings gs g new wr) l field = get_field gs l field
  ∧ settings (updateSettings gs g new wr) !! g ≠ Some l.
Proof.
  intros Hl.
  destruct (updateSettings_shape gs g new wr) as (l' & o & Hl' & Hset & _ & _ & Hold).
  split.
  - unfold get_field. by rewrite Hold.
  - rewrite Hset, lookup_insert_eq. intros [= ->].
    rewrite Hl' in Hl. by destruct Hl.
Qed.

Lemma updateSettings_leaves_objects_witness :
  is_Some (heap Scenario.configured7 !! 2%positive) ∧
  get_field (updateSettings Scenario.configured7 "7"
               {[ "roleId" := VStr "r2" ]} true) 2%positive "roleId"
  = Some (VStr "r1") ∧
  setting (updateSettings Scenario.configured7 "7"
             {[ "roleId" := VStr "r2" ]} true) "7" "roleId"
  = Some (VStr "r2").
Proof.
  assert (H : is_Some (heap Scenario.configured7 !! 2%positive))
    by (vm_compute; eauto).
  split_and!; [done| |vm_compute; reflexivity].
  rewrite (proj1 (updateSettings_leaves_objects Scenario.configured7 "7"
                    {[ "roleId" := VStr "r2" ]} true 2%positive "roleId" H)).
  vm_compute. reflexivity.
Defined.

Lemma wf_empty : wf empty.
Proof. intros g l Hg. simpl in Hg. by rewrite lookup_empty in Hg. Qed.

Lemma wf_getSettings gs g : wf gs → wf (getSettings gs g).2.
Proof.
  intros Hwf. destruct (settings gs !! g) as [l0|] eqn:Hg.
  - by rewrite (getSettings_stored gs g l0).
  - destruct (getSettings_absent gs g Hg) as (Hfresh & Hset & Hheap).
    intros g0 l0 Hg0. rewrite Hset in Hg0. rewrite Hheap.
    destruct (decide ((getSettings gs g).1 = l0)) as [->|Hne].
    + rewrite lookup_insert_eq. eauto.
    + rewrite lookup_insert_ne by done. by apply (Hwf g0).
Qed.

Lemma wf_updateSettings gs g new wr : wf gs → wf (updateSettings gs g new wr).
Proof.
  intros Hwf.
  destruct (updateSettings_shape gs g new wr)
    as (l' & o & _ & Hset & Hheap & _ & Hold).
  intros g0 l0 Hg0. rewrite Hset in Hg0.
  destruct (decide (g = g0)) as [->|Hne].
  - rewrite lookup_insert_eq in Hg0. injection Hg0 as <-.
    rewrite Hheap. eauto.
  - rewrite lookup_insert_ne in Hg0 by done.
    rewrite Hold; by apply (Hwf g0).
Qed.

Lemma wf_configured7 : wf Scenario.configured7.
Proof. apply wf_updateSettings, wf_empty. Qed.

(** Guilds do not interfere: updating one guild changes no setting of
    another. *)
Theorem updateSettings_other_guild gs g g' new wr field :
  wf gs →
  g ≠ g' →
  setting (updateSettings gs g new wr) g' field = setting gs g' field.
Proof.
  intros Hwf Hne.
  destruct (updateSettings_shape gs g new wr) as (l' & o & _ & Hset & _ & _ & Hold).
  destruct (settings gs !! g') as [l|] eqn:Hg'.
  - rewrite (setting_stored _ g' l) by (by rewrite Hset, lookup_insert_ne).
    rewrite (setting_stored gs g' l) by done.
    unfold get_field. rewrite Hold; [done|]. by apply (Hwf g').
  - rewrite !setting_absent; [done..|]. by rewrite Hset, lookup_insert_ne.
Qed.

Lemma updateSettings_other_guild_witness :
  wf Scenario.configured7 ∧ "8" ≠ "7" ∧
  setting (updateSettings Scenario.configured7 "8"
             {[ "roleId" := VStr "r8" ]} true) "7" "roleId"
  = Some (VStr "r1").
Proof.
  assert (H : "8" ≠ "7") by discriminate.
  split_and!; [apply wf_configured7|done|].
  rewrite (updateSettings_other_guild Scenario.configured7 "8" "7"
             {[ "roleId" := VStr "r8" ]} true "roleId" wf_configured7 H).
  vm_compute. reflexivity.
Defined.

(** No operation of the store leaves a dangling reference behind: when
    every guild's reference points at an object, it still does after
    [getSettings], [updateSettings], a write to a field and [persist]. *)
Theorem wf_preserved gs g new wr l field v :
  wf gs →
  wf (getSettings gs g).2 ∧ wf (updateSettings gs g new wr)
  ∧ wf (set_field gs l field v) ∧ wf (persist wr gs).
Proof.
  intros Hwf. split_and!.
  - by apply wf_getSettings.
  - by apply wf_updateSettings.
  - intros g0 l0 Hg0. simpl in *. apply lookup_alter_is_Some. by apply (Hwf g0).
  - intros g0 l0 Hg0. rewrite settings_persist in Hg0. rewrite heap_persist.
    by apply (Hwf g0).
Qed.

Lemma wf_preserved_witness :
  wf empty ∧ wf (updateSettings empty "7" {[ "roleId" := VStr "r1" ]} true).
Proof.
  split; [apply wf_empty|].
  apply (wf_preserved empty "7" {[ "roleId" := VStr "r1" ]} true
           1%positive "roleId" VNull wf_empty).
Defined.




Lemma getSettings_absent_is_copy_witness :
  settings empty !! "7" = None ∧
  setting (set_field (getSettings empty "7").2 (getSettings empty "7").1
             "roleId" (VStr "r1")) "7" "roleId"
  = Some VNull.
Proof.
  split; [reflexivity|].
  unfold setting.
  rewrite (getSettings_absent_is_copy empty "7" "roleId" (VStr "r1") eq_refl).
  vm_compute. reflexivity.
Defined.

Lemma setting_after_getSettings gs g field :
  setting (getSettings gs g).2 g field = setting gs g field.
Proof.
  destruct (settings gs !! g) as [l|] eqn:Hg.
  - by rewrite (getSettings_stored gs g l).
  - destruct (getSettings_absent gs g Hg) as (_ & Hset & _).
    rewrite !setting_absent; [done..|]. by rewrite Hset.
Qed.

Lemma verifysetup_roleId gs g roleId title description color wr :
  setting (Bot.verifysetup gs g (Some roleId) title description color wr) g "roleId"
  = Some (VStr roleId).
Proof.
  unfold Bot.verifysetup. destruct (getSettings gs g) as [l gs1].
  rewrite setting_updateSettings. unfold Bot.setupSettings.
  destruct (Bot.given title), (Bot.given description), (Bot.given color);
    by simplify_map_eq.
Qed.

(** [/verifysetup] with a role: afterwards the guild's role is the one
    chosen; title, description and colour of the embed are replaced where
    the option was given and not empty, and read as before otherwise; no
    other setting, so none of the texts of the private message, changes. *)
Theorem verifysetup_settings gs g roleId title description color wr :
  let gs' := Bot.verifysetup gs g (Some roleId) title description color wr in
  let chosen (x : option string) (field : string) :=
    match Bot.given x with
    | Some text => Some (VStr text)
    | None => setting gs g field
    end in
  setting gs' g "roleId" = Some (VStr roleId) ∧
  setting gs' g "embedTitle" = chosen title "embedTitle" ∧
  setting gs' g "embedDescription" = chosen description "embedDescription" ∧
  setting gs' g "embedColor" = chosen color "embedColor" ∧
  ∀ field, field ∉ ["roleId"; "embedTitle"; "embedDescription"; "embedColor"] →
           setting gs' g field = setting gs g field.
Proof.
  intros gs' chosen. unfold gs', chosen, Bot.verifysetup.
  destruct (getSettings gs g) as [l gs1] eqn:Hget.
  assert (Hsame : ∀ field, setting gs1 g field = setting gs g field).
  { intros field. pose proof (setting_after_getSettings gs g field) as H.
    by rewrite Hget in H. }
  split_and!.
  - rewrite setting_updateSettings. unfold Bot.setupSettings.
    destruct (Bot.given title), (Bot.given description), (Bot.given color);
      by simplify_map_eq.
  - rewrite setting_updateSettings, Hsame. unfold Bot.setupSettings.
    destruct (Bot.given title), (Bot.given description), (Bot.given color);
      by simplify_map_eq.
  - rewrite setting_updateSettings, Hsame. unfold Bot.setupSettings.
    destruct (Bot.given title), (Bot.given description), (Bot.given color);
      by simplify_map_eq.
  - rewrite setting_updateSettings, Hsame. unfold Bot.setupSettings.
    destruct (Bot.given title), (Bot.given description), (Bot.given color);
      by simplify_map_eq.
  - intros field Hfield. rewrite setting_updateSettings, Hsame.
    assert (Hn : Bot.setupSettings roleId title description color !! field = None).
    { unfold Bot.setupSettings.
      repeat (apply not_elem_of_cons in Hfield as [? Hfield]).
      destruct (Bot.given title), (Bot.given description), (Bot.given color);
        by simplify_map_eq. }
    by rewrite Hn.
Qed.

End settings_more.

(** ** Message templates *)

Section placeholders.
Import GuildSettings.

Implicit Types (s a b c r pat before : string) (ch : ascii).

Lemma append_cons ch a s : String ch a +:+ s = String ch (a +:+ s).
Proof. reflexivity. Qed.

Lemma append_empty_r s : s +:+ "" = s.
Proof. induction s as [|ch s IH]; [done|]. by rewrite append_cons, IH. Qed.

Lemma append_assoc a b c : (a +:+ b) +:+ c = a +:+ (b +:+ c).
Proof. induction a as [|ch a IH]; [done|]. by rewrite !append_cons, IH. Qed.

Lemma occurs_app ch a b : occurs ch (a +:+ b) = occurs ch a || occurs ch b.
Proof.
  induction a as [|ch' a IH]; [done|].
  rewrite append_cons. simpl. by rewrite IH, orb_assoc.
Qed.

Lemma substitution_plain matched before after r :
  occurs "$" r = false → substitution matched before after r = r.
Proof.
  induction r as [|ch r IH]; [done|]. simpl.
  intros [Hch Hr]%orb_false_elim. apply bool_decide_eq_false in Hch.
  rewrite decide_False by done. by rewrite IH.
Qed.

Lemma prefix_app pat s : String.prefix pat (pat +:+ s) = true.
Proof.
  induction pat as [|ch pat IH]; [by destruct s|].
  rewrite append_cons. simpl. by destruct (ascii_dec ch ch).
Qed.

Lemma drop_string_app a s : drop_string (String.length a) (a +:+ s) = s.
Proof.
  induction a as [|ch a IH]; [by destruct s|]. by rewrite append_cons.
Qed.

Lemma replace_from_skip pat r x : ∀ before s,
  replace_from pat r before (String.length x) (x +:+ s)
  = replace_from pat r (before +:+ x) 0 s.
Proof.
  induction x as [|ch x IH]; intros before s.
  - by rewrite append_empty_r.
  - rewrite append_cons. simpl. rewrite IH. by rewrite append_assoc.
Qed.

Lemma replace_from_match ch p r before s :
  replace_from (String ch p) r before 0 (String ch p +:+ s)
  = substitution (String ch p) before s r
    +:+ replace_from (String ch p) r (before +:+ String ch p) 0 s.
Proof.
  pose proof (prefix_app (String ch p) s) as Hpre.
  pose proof (drop_string_app (String ch p) s) as Hdrop.
  rewrite append_cons in *.
  cbn [replace_from]. rewrite Hpre, Hdrop.
  cbn [String.length]. rewrite Nat.sub_1_r. cbn [Nat.pred].
  rewrite replace_from_skip. by rewrite append_assoc.
Qed.

Lemma replace_from_clean p r a : ∀ before s,
  occurs "{" a = false →
  replace_from (String "{" p) r before 0 (a +:+ s)
  = a +:+ replace_from (String "{" p) r (before +:+ a) 0 s.
Proof.
  induction a as [|ch a IH]; intros before s Ha.
  - by rewrite append_empty_r.
  - simpl in Ha. apply orb_false_elim in Ha as [Hch Ha].
    apply bool_decide_eq_false in Hch.
    rewrite !append_cons. cbn [replace_from String.prefix].
    destruct (ascii_dec "{" ch) as [Heq|_]; [by destruct Hch|].
    rewrite IH by done. by rewrite append_assoc.
Qed.

Lemma replace_all_clean p r a :
  occurs "{" a = false → replace_all (String "{" p) r a = a.
Proof.
  intros Ha. unfold replace_all.
  rewrite <-(append_empty_r a) at 1. rewrite replace_from_clean by done.
  simpl. by rewrite append_empty_r.
Qed.

Lemma replace_all_one p r a b :
  occurs "{" a = false → occurs "{" b = false →
  replace_all (String "{" p) r (a +:+ String "{" p +:+ b)
  = a +:+ substitution (String "{" p) a b r +:+ b.
Proof.
  intros Ha Hb. unfold replace_all.
  rewrite replace_from_clean by done. rewrite replace_from_match.
  cbn [String.append].
  rewrite <-(append_empty_r b) at 2. rewrite replace_from_clean by done.
  simpl. by rewrite append_empty_r.
Qed.

Lemma replace_from_nomatch pat r before ch s :
  String.prefix pat (String ch s) = false →
  replace_from pat r before 0 (String ch s)
  = String ch (replace_from pat r (before +:+ String ch "") 0 s).
Proof. intros Hpre. cbn [replace_from]. by rewrite Hpre. Qed.

(** A text without an opening brace comes back as it is, whatever the
    names. *)
Theorem replacePlaceholders_plain text serverName username :
  occurs "{" text = false →
  replacePlaceholders text serverName username = text.
Proof.
  intros Htext. unfold replacePlaceholders.
  rewrite (replace_all_clean "servername}" _ text) by done.
  by apply replace_all_clean.
Qed.

Lemma replacePlaceholders_plain_witness :
  occurs "{" "Verify Your Account" = false ∧
  replacePlaceholders "Verify Your Account" (Some "Guild") None
  = "Verify Your Account".
Proof.
  split; [reflexivity|].
  apply (replacePlaceholders_plain "Verify Your Account" (Some "Guild") None).
  reflexivity.
Defined.

(** Both placeholders are filled in: in a text made of plain stretches
    around [{username}] and [{servername}], each is replaced by its name,
    or by "User" and "Server" where the name is missing or empty. The
    names are free of dollar signs and the server name of opening
    braces. *)
Theorem replacePlaceholders_fills a b c serverName username :
  let sn := or_else serverName "Server" in
  let un := or_else username "User" in
  occurs "{" a = false → occurs "{" b = false → occurs "{" c = false →
  occurs "$" sn = false → occurs "{" sn = false → occurs "$" un = false →
  replacePlaceholders (a +:+ "{username}" +:+ b +:+ "{servername}" +:+ c)
    serverName username
  = a +:+ un +:+ b +:+ sn +:+ c.
Proof.
  intros sn un Ha Hb Hc Hsn1 Hsn2 Hun. unfold replacePlaceholders.
  fold sn un.
  assert (Hfirst :
    replace_all "{servername}" sn
      (a +:+ "{username}" +:+ b +:+ "{servername}" +:+ c)
    = a +:+ "{username}" +:+ b +:+ sn +:+ c).
  { unfold replace_all. rewrite replace_from_clean by done.
    rewrite (append_cons "{" "username}").
    rewrite replace_from_nomatch by reflexivity.
    rewrite <-(append_assoc "username}" b).
    rewrite replace_from_clean
      by (rewrite occurs_app, Hb; reflexivity).
    rewrite replace_from_match, substitution_plain by done.
    rewrite <-(append_empty_r c) at 1.
    rewrite replace_from_clean by done. cbn [replace_from].
    rewrite append_empty_r.
    by rewrite (append_cons "{" "username}"), (append_assoc "username}" b). }
  rewrite Hfirst.
  rewrite (replace_all_one "username}" un a (b +:+ sn +:+ c)); [|done|].
  - by rewrite substitution_plain.
  - by rewrite !occurs_app, Hb, Hsn2, Hc.
Qed.

Lemma replacePlaceholders_fills_witness :
  occurs "{" "Hi " = false ∧ occurs "{" ", welcome to " = false ∧
  occurs "{" "!" = false ∧
  replacePlaceholders "Hi {username}, welcome to {servername}!" (Some "Lounge") (Some "")
  = "Hi User, welcome to Lounge!".
Proof.
  split_and!; [reflexivity..|].
  apply (replacePlaceholders_fills "Hi " ", welcome to " "!" (Some "Lounge") (Some ""));
    reflexivity.
Defined.

(** A dollar sign in a name is read as a replacement pattern: the server
    name goes through [substitution], so [$$] comes out as one dollar sign
    and [$`] and [$'] as the text around the placeholder. *)
Theorem replacePlaceholders_dollar a b serverName username :
  let sn := substitution "{servername}" a b (or_else serverName "Server") in
  occurs "{" a = false → occurs "{" b = false → occurs "{" sn = false →
  replacePlaceholders (a +:+ "{servername}" +:+ b) serverName username
  = a +:+ sn +:+ b.
Proof.
  intros sn Ha Hb Hsn. unfold replacePlaceholders.
  rewrite (replace_all_one "servername}" _ a b) by done. fold sn.
  apply replace_all_clean. by rewrite !occurs_app, Ha, Hsn, Hb.
Qed.

Lemma replacePlaceholders_dollar_witness :
  occurs "{" "<" = false ∧ occurs "{" ">" = false ∧
  replacePlaceholders "<{servername}>" (Some "US$$ $` $'") None
  = "<US$ < >>".
Proof.
  split_and!; [reflexivity..|].
  apply (replacePlaceholders_dollar "<" ">" (Some "US$$ $` $'") None);
    reflexivity.
Defined.

(** The second pass reads what the first one wrote: a server whose name is
    the text [{username}] is shown under the name of the user. *)
Theorem replacePlaceholders_second_pass a b username :
  let un := or_else username "User" in
  occurs "{" a = false → occurs "{" b = false → occurs "$" un = false →
  replacePlaceholders (a +:+ "{servername}" +:+ b) (Some "{username}") username
  = a +:+ un +:+ b.
Proof.
  intros un Ha Hb Hun. unfold replacePlaceholders. fold un.
  rewrite (replace_all_one "servername}" _ a b) by done.
  change (or_else (Some "{username}") "Server") with "{username}".
  rewrite substitution_plain by reflexivity.
  rewrite (replace_all_one "username}" un a b) by done.
  by rewrite substitution_plain.
Qed.

Lemma replacePlaceholders_second_pass_witness :
  occurs "{" "Welcome to " = false ∧ occurs "{" "!" = false ∧
  occurs "$" "bob" = false ∧
  replacePlaceholders "Welcome to {servername}!" (Some "{username}") (Some "bob")
  = "Welcome to bob!".
Proof.
  split_and!; [reflexivity..|].
  apply (replacePlaceholders_second_pass "Welcome to " "!" (Some "bob"));
    reflexivity.
Defined.

End placeholders.

(** ** More on the callback route *)

Section callback_more.
Import VerificationStore Web.

Implicit Types (e : env) (vs : VerificationStore.t) (code : qparam)
  (s : string) (now : Z) (wr : bool).

Lemma verify_lookup_ne vs u u' presented now wr :
  u ≠ u' →
  store (verify vs (Some u) presented now wr).2 !! u' = store vs !! u'.
Proof.
  intros Hne. unfold verify. destruct (store vs !! u) as [d|]; [|done].
  destruct (decide (Some (state d) ≠ presented)); [done|].
  destruct (decide (expired now d)); simpl; rewrite store_persist; simpl;
    by apply lookup_delete_ne.
Qed.

Lemma split_clean a :
  GuildSettings.occurs colon a = false → split colon a = [a].
Proof.
  induction a as [|ch a IH]; [done|]. simpl.
  intros [Hch Ha]%orb_false_elim. apply bool_decide_eq_false in Hch.
  rewrite decide_False by done. by rewrite IH.
Qed.

Lemma split_field a rest :
  GuildSettings.occurs colon a = false →
  split colon (a +:+ ":" +:+ rest) = a :: split colon rest.
Proof.
  induction a as [|ch a IH]; [done|].
  rewrite append_cons. simpl.
  intros [Hch Ha]%orb_false_elim. apply bool_decide_eq_false in Hch.
  rewrite decide_False by done. by rewrite IH.
Qed.

Lemma split_compositeState u g s :
  GuildSettings.occurs colon u = false →
  GuildSettings.occurs colon g = false →
  GuildSettings.occurs colon s = false →
  split colon (compositeState u g s) = [u; g; s].
Proof.
  intros Hu Hg Hs. unfold compositeState.
  by rewrite !split_field, split_clean.
Qed.

Lemma compositeState_nonempty u g s : compositeState u g s ≠ "".
Proof. unfold compositeState. by destruct u. Qed.

(** Round trip of the wire format: what [/verify] glues together with
    colons, the callback's [split] takes apart again, as long as no field
    holds a colon itself. *)
Theorem compositeState_round_trip u g s :
  GuildSettings.occurs colon u = false →
  GuildSettings.occurs colon g = false →
  GuildSettings.occurs colon s = false →
  split colon (compositeState u g s) = [u; g; s].
Proof. apply split_compositeState. Qed.

Lemma compositeState_round_trip_witness :
  GuildSettings.occurs colon "42" = false ∧
  GuildSettings.occurs colon "7" = false ∧
  GuildSettings.occurs colon "abc" = false ∧
  split colon (compositeState "42" "7" "abc") = ["42"; "7"; "abc"].
Proof.
  split_and!; [reflexivity..|].
  apply (compositeState_round_trip "42" "7" "abc"); reflexivity.
Defined.

Lemma callback_honest e vs u g s (t0 : Z) (w0 : bool) code
    now wr tok du now' wr' :
  GuildSettings.occurs colon u = false →
  GuildSettings.occurs colon g = false →
  GuildSettings.occurs colon s = false →
  falsy code = false →
  (now - t0 ≤ expirationTime)%Z →
  exchange e code = Some tok →
  fetchUser e tok = Some du →
  id du = u →
  let r := callback e (addPending vs u g s t0 w0) code
             (QString (compositeState u g s)) now wr in
  calls r = [ExchangeCode code; FetchIdentity tok;
             AssignVerifiedRole (Some u) (Some g)] ∧
  resp r = {| status := 200;
              content := if assignVerifiedRole e (Some u) (Some g)
                         then SuccessPage (username du)
                         else ErrorPage role_failed |} ∧
  store (after r) = delete u (store vs) ∧
  callback e (after r) code (QString (compositeState u g s)) now' wr'
  = send (ErrorPage expired_or_invalid) (after r) [].
Proof.
  intros Hu Hg Hs Hcode Hage Hex Hfetch Hid r.
  pose proof (addPending_lookup vs u g s t0 w0) as Hstored.
  set (d := {| guildId := g; state := s; timestamp := t0 |}) in *.
  assert (Hfresh : ¬ expired now d) by (unfold expired; simpl; lia).
  assert (Hr : r = send (if assignVerifiedRole e (Some u) (Some g)
                         then SuccessPage (username du)
                         else ErrorPage role_failed)
                     (persist wr {| store := delete u (store (addPending vs u g s t0 w0));
                                    file := file (addPending vs u g s t0 w0) |})
                     [ExchangeCode code; FetchIdentity tok;
                      AssignVerifiedRole (Some u) (Some g)]).
  { unfold r. rewrite callback_string by (done || apply compositeState_nonempty).
    cbn zeta. rewrite split_compositeState by done.
    change ([u; g; s] !! 0%nat) with (Some u).
    change ([u; g; s] !! 1%nat) with (Some g).
    change ([u; g; s] !! 2%nat) with (Some (state d)).
    rewrite (verify_in_time _ u d) by done. cbn [fst snd returned].
    rewrite Hex, Hfetch. rewrite decide_False; [done|].
    intros Hne. apply Hne. by rewrite Hid. }
  assert (Hstore : store (after r) = delete u (store vs)).
  { rewrite Hr. simpl. rewrite store_persist. simpl. unfold addPending.
    rewrite store_persist. simpl. apply delete_insert_eq. }
  split_and!; [by rewrite Hr..|done|].
  rewrite callback_string by (done || apply compositeState_nonempty).
  cbn zeta. rewrite split_compositeState by done.
  change ([u; g; s] !! 0%nat) with (Some u).
  rewrite (verify_absent _ u); [done|].
  rewrite Hstore. apply lookup_delete_eq.
Qed.

(** The whole way through. A session is added for a user, and the callback
    comes back within the window with the state [/verify] built and a
    code; the provider vouches for that user. Then the provider is asked
    twice and the role once, for that user in the guild of the session;
    the page sent is the success page, or the role failure page when
    [assignVerifiedRole] says no; the session is gone, and the same
    callback made again gets the "expired or invalid" page with no
    outbound call. *)
Theorem callback_after_addPending e vs u g s (t0 : Z) (w0 : bool) code
    now wr tok du now' wr' :
  GuildSettings.occurs colon u = false →
  GuildSettings.occurs colon g = false →
  GuildSettings.occurs colon s = false →
  falsy code = false →
  (now - t0 ≤ expirationTime)%Z →
  exchange e code = Some tok →
  fetchUser e tok = Some du →
  id du = u →
  let r := callback e (addPending vs u g s t0 w0) code
             (QString (compositeState u g s)) now wr in
  calls r = [ExchangeCode code; FetchIdentity tok;
             AssignVerifiedRole (Some u) (Some g)] ∧
  resp r = {| status := 200;
              content := if assignVerifiedRole e (Some u) (Some g)
                         then SuccessPage (username du)
                         else ErrorPage role_failed |} ∧
  store (after r) = delete u (store vs) ∧
  callback e (after r) code (QString (compositeState u g s)) now' wr'
  = send (ErrorPage expired_or_invalid) (after r) [].
Proof. apply callback_honest. Qed.

Lemma callback_after_addPending_witness :
  (1000 - 0 ≤ expirationTime)%Z ∧
  resp (callback Scenario.discord Scenario.pending42 (QString "code")
          (QString (compositeState "42" "7" "abc")) 1000 true)
  = {| status := 200; content := SuccessPage "alice" |}.
Proof.
  split; [unfold expirationTime; lia|].
  apply (callback_after_addPending Scenario.discord VerificationStore.empty
           "42" "7" "abc" 0 true (QString "code") 1000 true "token"
           Scenario.alice 2000 true);
    try reflexivity.
  unfold expirationTime; lia.
Defined.

(** No outbound call without a redeemed session: when the callback asks
    the provider or the bot for anything, the state named a user whose
    stored session matched and was in time, the first call is the code
    exchange, and that session is no longer in the store, whatever the
    later steps came to. *)
Theorem callback_calls_need_session e vs code state now wr :
  let r := callback e vs code state now wr in
  calls r ≠ [] →
  ∃ s u d,
    state = QString s ∧ split colon s !! 0%nat = Some u ∧
    store vs !! u = Some d ∧ split colon s !! 2%nat = Some (VerificationStore.state d) ∧
    ¬ expired now d ∧
    head (calls r) = Some (ExchangeCode code) ∧
    store (after r) = delete u (store vs).
Proof.
  intros r Hcalls.
  destruct (falsy code || falsy state) eqn:Hf.
  { unfold r in Hcalls. by rewrite callback_bad_request in Hcalls. }
  apply orb_false_elim in Hf as [Hcode Hstate].
  destruct state as [|s|]; [done| |].
  2: { unfold r, callback in Hcalls. by rewrite Hcode in Hcalls. }
  simpl in Hstate. apply bool_decide_eq_false in Hstate.
  unfold r in *. rewrite callback_string in * by done. cbn zeta in *.
  destruct (returned (verify vs (split colon s !! 0%nat)
                        (split colon s !! 2%nat) now wr).1) as [d|] eqn:Hret;
    [|done].
  pose proof Hret as Hv.
  apply verify_returned in Hv as (u & Hu & Hd & Htok & Hfresh).
  exists s, u, d. split_and!; [done..| |].
  - destruct (exchange e code); [|done].
    destruct (fetchUser e _); [|done]. by case_decide.
  - assert (Hafter : store (verify vs (split colon s !! 0%nat)
                              (split colon s !! 2%nat) now wr).2
                     = delete u (store vs)).
    { rewrite Hu, Htok, (verify_in_time vs u d) by done.
      simpl. by rewrite store_persist. }
    destruct (exchange e code); [|done].
    destruct (fetchUser e _); [|done]. by case_decide.
Qed.

Lemma callback_calls_need_session_witness :
  calls (callback Scenario.discord99 Scenario.pending42 (QString "code")
           (QString "42:7:abc") 1000 true) ≠ [] ∧
  store (after (callback Scenario.discord99 Scenario.pending42 (QString "code")
                  (QString "42:7:abc") 1000 true)) !! "42" = None.
Proof.
  assert (H : calls (callback Scenario.discord99 Scenario.pending42 (QString "code")
                       (QString "42:7:abc") 1000 true) ≠ [])
    by (vm_compute; discriminate).
  split; [done|].
  destruct (callback_calls_need_session Scenario.discord99 Scenario.pending42
              (QString "code") (QString "42:7:abc") 1000 true H)
    as (s & u & d & Hs & Hu & _ & _ & _ & _ & Hstore).
  injection Hs as <-. vm_compute in Hu. injection Hu as <-.
  rewrite Hstore. apply lookup_delete_eq.
Defined.

(** The success page is sent only on the full chain: a stored session
    that matched and was in time, a code the provider exchanged, an
    identity that is the user of the state and whose name is on the page,
    and a role assignment that came back true. *)
Theorem callback_success_only_if e vs code state now wr name :
  content (resp (callback e vs code state now wr)) = SuccessPage name →
  ∃ s u d tok du,
    state = QString s ∧ split colon s !! 0%nat = Some u ∧
    store vs !! u = Some d ∧ split colon s !! 2%nat = Some (VerificationStore.state d) ∧
    ¬ expired now d ∧
    exchange e code = Some tok ∧ fetchUser e tok = Some du ∧
    id du = u ∧ username du = name ∧
    assignVerifiedRole e (Some u) (split colon s !! 1%nat) = true.
Proof.
  intros Hpage.
  destruct (falsy code || falsy state) eqn:Hf.
  { by rewrite callback_bad_request in Hpage. }
  apply orb_false_elim in Hf as [Hcode Hstate].
  destruct state as [|s|]; [done| |].
  2: { unfold callback in Hpage. by rewrite Hcode in Hpage. }
  simpl in Hstate. apply bool_decide_eq_false in Hstate.
  rewrite callback_string in Hpage by done. cbn zeta in Hpage.
  destruct (returned (verify vs (split colon s !! 0%nat)
                        (split colon s !! 2%nat) now wr).1) as [d|] eqn:Hret;
    [|done].
  apply verify_returned in Hret as (u & Hu & Hd & Htok & Hfresh).
  destruct (exchange e code) as [tok|] eqn:Hex; [|done].
  destruct (fetchUser e tok) as [du|] eqn:Hfetch; [|done].
  case_decide as Hid; [done|].
  rewrite Hu in Hid. injection Hid as Hid.
  rewrite Hu in Hpage.
  destruct (assignVerifiedRole e (Some u) _) eqn:Hassign; [|done].
  simpl in Hpage. injection Hpage as Hname.
  exists s, u, d, tok, du. by split_and!.
Qed.

Lemma callback_success_only_if_witness :
  content (resp (callback Scenario.discord Scenario.pending42 (QString "code")
                   (QString "42:7:abc") 1000 true)) = SuccessPage "alice" ∧
  store Scenario.pending42 !! "42" = Some Scenario.session.
Proof.
  assert (H : content (resp (callback Scenario.discord Scenario.pending42
                               (QString "code") (QString "42:7:abc") 1000 true))
              = SuccessPage "alice") by (vm_compute; reflexivity).
  split; [done|].
  destruct (callback_success_only_if Scenario.discord Scenario.pending42
              (QString "code") (QString "42:7:abc") 1000 true "alice" H)
    as (s & u & d & tok & du & Hs & Hu & Hd & Htok & _).
  injection Hs as <-. vm_compute in Hu. injection Hu as <-.
  rewrite Hd. f_equal. vm_compute in Htok. injection Htok as Htok.
  vm_compute in Hd. by injection Hd as <-.
Defined.

(** The callback takes sessions away and nothing else: the entry of every
    user other than the one named first in the state is as it was, and no
    entry is added or altered. *)
Theorem callback_store_frame e vs code s now wr k :
  let r := callback e vs code (QString s) now wr in
  (split colon s !! 0%nat ≠ Some k → store (after r) !! k = store vs !! k) ∧
  (∀ d, store (after r) !! k = Some d → store vs !! k = Some d).
Proof.
  intros r.
  assert (Hafter : after r = vs
                   ∨ after r = (verify vs (split colon s !! 0%nat)
                                  (split colon s !! 2%nat) now wr).2).
  { unfold r. destruct (falsy code || falsy (QString s)) eqn:Hf.
    { left. by rewrite callback_bad_request. }
    apply orb_false_elim in Hf as [Hcode Hs].
    simpl in Hs. apply bool_decide_eq_false in Hs.
    right. rewrite callback_string by done. cbn zeta.
    destruct (returned _); [|done].
    destruct (exchange e code); [|done].
    destruct (fetchUser e _); [|done]. by case_decide. }
  destruct Hafter as [->| ->]; [done|].
  split.
  - intros Hk. destruct (split colon s !! 0%nat) as [u|] eqn:Hu; [|done].
    apply verify_lookup_ne. congruence.
  - intros d. apply verify_lookup_Some.
Qed.

End callback_more.

(** ** bot.js: roles and the Verify button *)

Section bot_facts.
Import GuildSettings Bot.

Implicit Types (gs : GuildSettings.t) (vs : VerificationStore.t)
  (g uid gid roleId : string) (wr add_ok : bool).

(** What [assignVerifiedRole] comes to once guild, role and member are
    found. *)
Lemma assignVerifiedRole_found guilds gs gid uid guild m roleId add_ok :
  guilds !! gid = Some guild →
  configured (setting gs gid "roleId") = Some roleId →
  fetch guild uid = Some m →
  roleId ∈ guildRoles guild →
  assignVerifiedRole guilds gs (Some uid) (Some gid) add_ok
  = if decide (roleId ∈ memberRoles m) then
      {| ok := true; effects := []; settingsAfter := (getSettings gs gid).2 |}
    else if add_ok then
      {| ok := true;
         effects := [RolesAdd gid uid roleId;
                     Send uid (successMessage (memberName m) (guildName guild))];
         settingsAfter := (getSettings gs gid).2 |}
    else
      {| ok := false; effects := [RolesAdd gid uid roleId];
         settingsAfter := (getSettings gs gid).2 |}.
Proof.
  intros Hguild Hrole Hm Hin. unfold assignVerifiedRole, setting in *.
  rewrite Hguild. destruct (getSettings gs gid) as [l gs1]. cbn [fst snd] in *.
  rewrite Hrole, Hm. by rewrite decide_True.
Qed.

(** And the other way round: whatever [assignVerifiedRole] did beyond
    refusing, guild, role and member were found. *)
Lemma assignVerifiedRole_inv guilds gs userId guildId add_ok :
  let r := assignVerifiedRole guilds gs userId guildId add_ok in
  ok r = true ∨ effects r ≠ [] →
  ∃ gid uid guild m roleId,
    guildId = Some gid ∧ userId = Some uid ∧ guilds !! gid = Some guild ∧
    configured (setting gs gid "roleId") = Some roleId ∧
    fetch guild uid = Some m ∧ roleId ∈ guildRoles guild.
Proof.
  intros r Hr. unfold r, assignVerifiedRole in *.
  destruct guildId as [gid|]; [|by destruct Hr].
  destruct (guilds !! gid) as [guild|] eqn:Hguild; [|by destruct Hr].
  destruct (getSettings gs gid) as [l gs1] eqn:Hget. cbn [fst snd] in *.
  destruct (configured (get_field gs1 l "roleId")) as [roleId|] eqn:Hrole;
    [|by destruct Hr].
  destruct userId as [uid|]; [|by destruct Hr].
  destruct (fetch guild uid) as [m|] eqn:Hm; [|by destruct Hr].
  destruct (decide (roleId ∈ guildRoles guild)); [|by destruct Hr].
  exists gid, uid, guild, m, roleId. unfold setting. rewrite Hget.
  by split_and!.
Qed.

(** [assignVerifiedRole] answers true only for a cached guild with a role
    configured that the guild still has and a member it could fetch; and
    then either the member held the role already and nothing was done, or
    the role was added, that one role to that one member, and the welcome
    message sent. *)
Theorem assignVerifiedRole_true guilds gs userId guildId add_ok :
  let r := assignVerifiedRole guilds gs userId guildId add_ok in
  ok r = true →
  ∃ gid uid guild m roleId,
    guildId = Some gid ∧ userId = Some uid ∧ guilds !! gid = Some guild ∧
    configured (setting gs gid "roleId") = Some roleId ∧
    fetch guild uid = Some m ∧ roleId ∈ guildRoles guild ∧
    ((roleId ∈ memberRoles m ∧ effects r = [])
     ∨ ((roleId ∉ memberRoles m) ∧ add_ok = true ∧
        effects r = [RolesAdd gid uid roleId;
                     Send uid (successMessage (memberName m) (guildName guild))])).
Proof.
  intros r Hok.
  destruct (assignVerifiedRole_inv guilds gs userId guildId add_ok (or_introl Hok))
    as (gid & uid & guild & m & roleId & -> & -> & Hguild & Hrole & Hm & Hin).
  exists gid, uid, guild, m, roleId. split_and!; [done..|].
  unfold r in *.
  rewrite (assignVerifiedRole_found guilds gs gid uid guild m roleId) in * by done.
  destruct (decide (roleId ∈ memberRoles m)); [by left|].
  destruct add_ok; [by right|done].
Qed.

Lemma assignVerifiedRole_true_witness :
  ok (assignVerifiedRole {[ "7" := Scenario.guild7 ]} Scenario.configured7
        (Some "42") (Some "7") true) = true ∧
  effects (assignVerifiedRole {[ "7" := Scenario.guild7 ]} Scenario.configured7
             (Some "42") (Some "7") true)
  = [RolesAdd "7" "42" "r1"; Send "42" (successMessage "alice" "Lounge")].
Proof.
  assert (H : ok (assignVerifiedRole {[ "7" := Scenario.guild7 ]}
                    Scenario.configured7 (Some "42") (Some "7") true) = true)
    by (vm_compute; reflexivity).
  split; [done|].
  destruct (assignVerifiedRole_true _ _ _ _ _ H)
    as (gid & uid & guild & m & roleId & _).
  vm_compute. reflexivity.
Defined.

(** The only role [assignVerifiedRole] ever tries to add is the one
    configured for the guild it was called for, to the member it was
    called for, and only when the guild has that role and the member does
    not hold it. *)
Theorem assignVerifiedRole_adds_configured guilds gs userId guildId add_ok
    g' u' r' :
  RolesAdd g' u' r' ∈ effects (assignVerifiedRole guilds gs userId guildId add_ok) →
  guildId = Some g' ∧ userId = Some u' ∧
  configured (setting gs g' "roleId") = Some r' ∧
  ∃ guild m, guilds !! g' = Some guild ∧ r' ∈ guildRoles guild ∧
             fetch guild u' = Some m ∧ (r' ∉ memberRoles m).
Proof.
  intros Hin.
  assert (Hne : effects (assignVerifiedRole guilds gs userId guildId add_ok) ≠ []).
  { intros Heq. rewrite Heq in Hin. by apply elem_of_nil in Hin. }
  destruct (assignVerifiedRole_inv guilds gs userId guildId add_ok (or_intror Hne))
    as (gid & uid & guild & m & roleId & -> & -> & Hguild & Hrole & Hm & Hrolein).
  rewrite (assignVerifiedRole_found guilds gs gid uid guild m roleId) in Hin by done.
  destruct (decide (roleId ∈ memberRoles m)) as [|Hlacks].
  { by apply elem_of_nil in Hin. }
  assert (Heq : RolesAdd g' u' r' = RolesAdd gid uid roleId).
  { destruct add_ok; simpl in Hin.
    - apply elem_of_cons in Hin as [Hin|Hin]; [done|].
      apply elem_of_cons in Hin as [Hin|Hin]; [done|].
      by apply elem_of_nil in Hin.
    - apply elem_of_cons in Hin as [Hin|Hin]; [done|].
      by apply elem_of_nil in Hin. }
  injection Heq as -> -> ->. split_and!; [done..|]. by exists guild, m.
Qed.

Lemma assignVerifiedRole_adds_configured_witness :
  RolesAdd "7" "42" "r1"
  ∈ effects (assignVerifiedRole {[ "7" := Scenario.guild7 ]} Scenario.configured7
               (Some "42") (Some "7") false) ∧
  configured (setting Scenario.configured7 "7" "roleId") = Some "r1".
Proof.
  assert (H : RolesAdd "7" "42" "r1"
              ∈ effects (assignVerifiedRole {[ "7" := Scenario.guild7 ]}
                           Scenario.configured7 (Some "42") (Some "7") false)).
  { vm_compute. by left. }
  split; [done|].
  apply (assignVerifiedRole_adds_configured _ _ _ _ _ _ _ _ H).
Defined.

(** Set up, then verified: once [/verifysetup] has named a role, a member
    of that guild who lacks the role is given exactly that role by
    [assignVerifiedRole], provided the guild is in the cache and still has
    the role and Discord lets the bot add it. *)
Theorem verifysetup_then_assignVerifiedRole guilds gs g guild uid m roleId
    title description color wr :
  roleId ≠ "" →
  guilds !! g = Some guild →
  roleId ∈ guildRoles guild →
  fetch guild uid = Some m →
  roleId ∉ memberRoles m →
  let gs' := verifysetup gs g (Some roleId) title description color wr in
  let r := assignVerifiedRole guilds gs' (Some uid) (Some g) true in
  ok r = true ∧
  effects r = [RolesAdd g uid roleId;
               Send uid (successMessage (memberName m) (guildName guild))].
Proof.
  intros Hrole Hguild Hin Hm Hlacks gs' r. unfold r.
  rewrite (assignVerifiedRole_found guilds gs' g uid guild m roleId); [|done| |done..].
  - by rewrite decide_False.
  - unfold gs'. rewrite verifysetup_roleId. simpl. by rewrite decide_False.
Qed.

Lemma verifysetup_then_assignVerifiedRole_witness :
  "r1" ≠ "" ∧
  ok (assignVerifiedRole {[ "7" := Scenario.guild7 ]}
        (verifysetup GuildSettings.empty "7" (Some "r1") None None None true)
        (Some "42") (Some "7") true) = true.
Proof.
  split; [discriminate|].
  apply (verifysetup_then_assignVerifiedRole {[ "7" := Scenario.guild7 ]}
           GuildSettings.empty "7" Scenario.guild7 "42"
           {| memberName := "alice"; memberRoles := ∅ |} "r1" None None None true).
  - discriminate.
  - vm_compute. reflexivity.
  - vm_compute. reflexivity.
  - reflexivity.
  - apply not_elem_of_empty.
Defined.

Lemma verifyButton_inv gs vs guild uid g s baseUrl now wr :
  let r := verifyButton gs vs guild uid g s baseUrl now wr in
  settings r.1.2 = settings gs ∧
  match r.1.1 with
  | LinkMade url =>
      url = verifyUrl baseUrl uid g s ∧
      r.2 = VerificationStore.addPending vs uid g s now wr ∧
      ∃ roleId m, configured (setting gs g "roleId") = Some roleId ∧
                  roleId ∈ guildRoles guild ∧ fetch guild uid = Some m ∧
                  (roleId ∉ memberRoles m)
  | _ => r.2 = vs
  end.
Proof.
  intros r. unfold r, verifyButton, setting.
  assert (Hset : settings (getSettings gs g).2 = settings gs).
  { destruct (settings gs !! g) as [l|] eqn:Hg.
    - by rewrite (getSettings_stored gs g l).
    - by destruct (getSettings_absent gs g Hg) as (_ & ? & _). }
  destruct (getSettings gs g) as [l gs1]. cbn [fst snd] in *.
  destruct (configured (get_field gs1 l "roleId")) as [roleId|] eqn:Hrole; [|done].
  destruct (fetch guild uid) as [m|] eqn:Hm; [|done].
  destruct (decide (roleId ∈ guildRoles guild)); [|done].
  destruct (decide (roleId ∈ memberRoles m)); [done|].
  cbn [fst snd]. split_and!; [done..|]. by exists roleId, m.
Qed.

(** A click on Verify stores a session only for a guild with a role
    configured that the guild still has and for a member who does not hold
    it, and then it is the session [addPending] makes for that member,
    guild and state; in every other case the verification store is left
    alone. The settings are never changed. *)
Theorem verifyButton_stores_only_if gs vs guild uid g s baseUrl now wr :
  let r := verifyButton gs vs guild uid g s baseUrl now wr in
  settings r.1.2 = settings gs ∧
  match r.1.1 with
  | LinkMade url =>
      url = verifyUrl baseUrl uid g s ∧
      r.2 = VerificationStore.addPending vs uid g s now wr ∧
      ∃ roleId m, configured (setting gs g "roleId") = Some roleId ∧
                  roleId ∈ guildRoles guild ∧ fetch guild uid = Some m ∧
                  (roleId ∉ memberRoles m)
  | _ => r.2 = vs
  end.
Proof. apply verifyButton_inv. Qed.

Lemma verifyButton_settings gs vs guild uid g s baseUrl now wr :
  (verifyButton gs vs guild uid g s baseUrl now wr).1.2 = (getSettings gs g).2.
Proof.
  unfold verifyButton. destruct (getSettings gs g) as [l gs1].
  destruct (configured (get_field gs1 l "roleId")) as [roleId|]; [|done].
  destruct (fetch guild uid) as [m|]; [|done].
  destruct (decide (roleId ∈ guildRoles guild)); [|done].
  by destruct (decide (roleId ∈ memberRoles m)).
Qed.

(** From the click to the role. A member clicks Verify and gets a link;
    the callback comes back in time with the state of that link and a
    code, the provider vouches for that member, and the guild is in the
    cache as it was at the click. Then the role configured for the guild
    is added for that member, and the page is the success page when
    Discord lets the bot add it, and the role failure page when not. *)
Theorem click_then_callback guilds gs vs guild uid g s baseUrl (t0 : Z)
    (w0 : bool) url e code now wr tok du add_ok :
  let click := verifyButton gs vs guild uid g s baseUrl t0 w0 in
  click.1.1 = LinkMade url →
  guilds !! g = Some guild →
  occurs Web.colon uid = false →
  occurs Web.colon g = false →
  occurs Web.colon s = false →
  Web.falsy code = false →
  (now - t0 ≤ VerificationStore.expirationTime)%Z →
  Web.exchange e code = Some tok →
  Web.fetchUser e tok = Some du →
  Web.id du = uid →
  (∀ userId guildId : option string,
     Web.assignVerifiedRole e userId guildId
     = ok (assignVerifiedRole guilds click.1.2 userId guildId add_ok)) →
  let r := Web.callback e click.2 code
             (Web.QString (Web.compositeState uid g s)) now wr in
  Web.content (Web.resp r)
  = (if add_ok then Web.SuccessPage (Web.username du)
     else Web.ErrorPage Web.role_failed) ∧
  ∃ roleId,
    configured (setting gs g "roleId") = Some roleId ∧
    head (effects (assignVerifiedRole guilds click.1.2 (Some uid) (Some g) add_ok))
    = Some (RolesAdd g uid roleId).
Proof.
  intros click Hlink Hguild Hu Hg Hs Hcode Hage Hex Hfetch Hid Hassign r.
  pose proof (verifyButton_inv gs vs guild uid g s baseUrl t0 w0) as [_ Hinv].
  fold click in Hinv. rewrite Hlink in Hinv.
  destruct Hinv as (_ & Hstore & roleId & m & Hrole & Hin & Hm & Hlacks).
  assert (Hgs1 : click.1.2 = (getSettings gs g).2).
  { apply verifyButton_settings. }
  assert (Hrole' : configured (setting click.1.2 g "roleId") = Some roleId).
  { by rewrite Hgs1, setting_after_getSettings. }
  pose proof (assignVerifiedRole_found guilds click.1.2 g uid guild m roleId
                add_ok Hguild Hrole' Hm Hin) as Hfound.
  rewrite decide_False in Hfound by done.
  destruct (callback_honest e vs uid g s t0 w0 code now wr tok du now wr
              Hu Hg Hs Hcode Hage Hex Hfetch Hid) as (_ & Hresp & _).
  split.
  - unfold r. rewrite Hstore, Hresp. simpl. rewrite Hassign, Hfound.
    by destruct add_ok.
  - exists roleId. split; [done|]. rewrite Hfound. by destruct add_ok.
Qed.

Lemma click_then_callback_witness :
  (verifyButton Scenario.configured7 VerificationStore.empty Scenario.guild7
     "42" "7" "abc" "https://bot.example" 0 true).1.1
  = LinkMade "https://bot.example/verify?user=42&guild=7&state=abc" ∧
  (1000 - 0 ≤ VerificationStore.expirationTime)%Z ∧
  Web.content (Web.resp (Web.callback
    {| Web.exchange := λ _, Some "token";
       Web.fetchUser := λ _, Some Scenario.alice;
       Web.assignVerifiedRole := λ userId guildId,
         ok (assignVerifiedRole {[ "7" := Scenario.guild7 ]}
               (verifyButton Scenario.configured7 VerificationStore.empty
                  Scenario.guild7 "42" "7" "abc" "https://bot.example" 0 true).1.2
               userId guildId true) |}
    (verifyButton Scenario.configured7 VerificationStore.empty Scenario.guild7
       "42" "7" "abc" "https://bot.example" 0 true).2
    (Web.QString "code") (Web.QString (Web.compositeState "42" "7" "abc"))
    1000 true))
  = Web.SuccessPage "alice".
Proof.
  assert (H1 : (verifyButton Scenario.configured7 VerificationStore.empty
                  Scenario.guild7 "42" "7" "abc" "https://bot.example" 0 true).1.1
               = LinkMade "https://bot.example/verify?user=42&guild=7&state=abc")
    by (vm_compute; reflexivity).
  assert (H2 : (1000 - 0 ≤ VerificationStore.expirationTime)%Z)
    by (unfold VerificationStore.expirationTime; lia).
  split_and!; [done..|].
  refine (proj1 (click_then_callback {[ "7" := Scenario.guild7 ]}
           Scenario.configured7 VerificationStore.empty Scenario.guild7
           "42" "7" "abc" "https://bot.example" 0 true _ _ (Web.QString "code")
           1000 true "token" Scenario.alice true
           H1 _ _ _ _ _ H2 _ _ _ _)); try reflexivity.
Defined.

End bot_facts.
